(** * Donut chart engine of [CustomPieChart]

    A shallow embedding of the React component [CustomPieChart]
    (components/CustomPieChart.tsx, imported by the reporting screen): the slice computation, the SVG
    path builder [createPieSlice], the touch areas, the selection toggle
    [handleSlicePress] and the centre label.

    The component is written once, over an interface [JSNumber] of the
    arithmetic it uses.  The instance [binary64] is the program: JavaScript
    numbers are IEEE 754 double-precision floats, here Rocq's primitive
    floats, so NaN, the infinities, signed zeros and rounding are those of
    the running code.  The instance [exact] (canonical rationals) is the
    same code read in exact arithmetic; it is used only where a property is
    one of the algorithm and not of its rounding.

    [Math.cos], [Math.sin] and the number formatters are functions of the
    JavaScript host; they are the fields of [Host] and every statement
    holds for every host. *)

From Stdlib Require Import ZArith List String Bool Lia.
From Stdlib Require Import Floats Uint63.
From Stdlib Require Import QArith Qcanon.
From Stdlib Require Import Ascii Permutation.
Import ListNotations.

Set Warnings "-inexact-float".

(** ** The numbers of the program *)

Class JSNumber (N : Type) : Type := {
  (** the decimal literal [m * 10^-k] of the source text *)
  lit : Z -> nat -> N;
  add : N -> N -> N;
  sub : N -> N -> N;
  mul : N -> N -> N;
  div : N -> N -> N;
  (** [a > b] and [a >= b] *)
  gtb : N -> N -> bool;
  geb : N -> N -> bool;
  (** [Math.max(a, b)] *)
  Math_max : N -> N -> N
}.

Class Host (N : Type) : Type := {
  Math_cos : N -> N;
  Math_sin : N -> N;
  (** [`${x}`], i.e. Number::toString *)
  toString : N -> string;
  (** [x.toFixed(digits)] *)
  toFixed : N -> nat -> string;
  (** [x.toLocaleString(locale)] *)
  toLocaleString : N -> string -> string
}.

Declare Scope js_scope.
Delimit Scope js_scope with js.
Notation "x + y" := (add x y) : js_scope.
Notation "x - y" := (sub x y) : js_scope.
Notation "x * y" := (mul x y) : js_scope.
Notation "x / y" := (div x y) : js_scope.
Notation "x >? y" := (gtb x y) (at level 70, no associativity) : js_scope.
Notation "x >=? y" := (geb x y) (at level 70, no associativity) : js_scope.

(** *** IEEE 754 binary64 *)

Module F64.

Definition ofZ (z : Z) : float :=
  match z with
  | Z0 => PrimFloat.zero
  | Zpos _ => PrimFloat.of_uint63 (Uint63.of_Z z)
  | Zneg p => PrimFloat.opp (PrimFloat.of_uint63 (Uint63.of_Z (Zpos p)))
  end.

(** Both operands are integers below 2^53, so the correctly rounded
    quotient is the double nearest to the decimal literal. *)
Definition literal (m : Z) (k : nat) : float :=
  PrimFloat.div (ofZ m) (ofZ (10 ^ Z.of_nat k)).

(** [Math.max] on two arguments: NaN if either is NaN, and +0 is larger
    than -0. *)
Definition max (a b : float) : float :=
  if PrimFloat.is_nan a || PrimFloat.is_nan b then PrimFloat.nan
  else if PrimFloat.ltb a b then b
  else if PrimFloat.ltb b a then a
  else if PrimFloat.get_sign a then b else a.

Definition isNaN (x : float) : bool := PrimFloat.is_nan x.

(** [Number.isFinite] *)
Definition isFinite (x : float) : bool :=
  PrimFloat.ltb (PrimFloat.abs x) PrimFloat.infinity.

(** [x === 0], true of both zeros *)
Definition isZero (x : float) : bool := PrimFloat.eqb x PrimFloat.zero.

(** NaN and the infinities, on the specification side of a double. *)
Definition sf_nonfinite (s : spec_float) : bool :=
  match s with
  | S754_nan | S754_infinity _ => true
  | _ => false
  end.

End F64.

#[export] Instance binary64 : JSNumber float := {
  lit := F64.literal;
  add := PrimFloat.add;
  sub := PrimFloat.sub;
  mul := PrimFloat.mul;
  div := PrimFloat.div;
  gtb := fun a b => PrimFloat.ltb b a;
  geb := fun a b => PrimFloat.leb b a;
  Math_max := F64.max
}.

(** *** Exact arithmetic *)

Module Exact.

Definition literal (m : Z) (k : nat) : Qc :=
  Q2Qc (Qmake m (Z.to_pos (10 ^ Z.of_nat k))).

Definition ltb (a b : Qc) : bool := negb (Qle_bool (this b) (this a)).
Definition leb (a b : Qc) : bool := Qle_bool (this a) (this b).
Definition max (a b : Qc) : Qc := if leb a b then b else a.

End Exact.

#[export] Instance exact : JSNumber Qc := {
  lit := Exact.literal;
  add := Qcplus;
  sub := Qcminus;
  mul := Qcmult;
  div := Qcdiv;
  gtb := fun a b => Exact.ltb b a;
  geb := fun a b => Exact.leb b a;
  Math_max := Exact.max
}.

(** ** The component *)

Section CustomPieChart.

Context {N : Type} `{JSNumber N} `{Host N}.

Local Open Scope js_scope.
Local Open Scope string_scope.

(** An integer literal of the source. *)
Definition num (z : Z) : N := lit z 0.

(** [Math.PI] *)
Definition Math_PI : N := lit 3141592653589793 15.

Record PieChartData : Type := {
  name : string;
  amount : N;
  color : string
}.

(** [selectedIndex === index], with [selectedIndex : number | null]. *)
Definition same_index (selectedIndex : option nat) (index : nat) : bool :=
  match selectedIndex with
  | Some j => Nat.eqb j index
  | None => false
  end.

(** [data.reduce((sum, item) => sum + item.amount, 0)] *)
Definition total (data : list PieChartData) : N :=
  fold_left (fun sum item => sum + amount item) data (num 0).

Section Geometry.

(** The [size] prop (240 when absent) and the total of the data. *)
Variable size : N.
Variable total_ : N.

Definition centerX : N := size / num 2.
Definition centerY : N := size / num 2.
Definition radius : N := (size / num 2) - num 10.
Definition innerRadius : N := radius * lit 55 2.

(** *** SVG path data

    The source assembles the path from template strings, one per path
    command, joined by a space.  [PathCmd] is one such template; the
    flags of an arc are the digits 0 and 1. *)

Inductive PathCmd : Type :=
| MoveTo (x y : N)
| ArcTo (rx ry : N) (largeArc sweep : bool) (x y : N)
| LineTo (x y : N)
| ClosePath.

Definition flag_text (b : bool) : string := if b then "1" else "0".

Definition cmd_text (c : PathCmd) : string :=
  match c with
  | MoveTo x y => "M " ++ toString x ++ " " ++ toString y
  | ArcTo rx ry largeArc sweep x y =>
      "A " ++ toString rx ++ " " ++ toString ry ++ " 0 "
        ++ flag_text largeArc ++ " " ++ flag_text sweep ++ " "
        ++ toString x ++ " " ++ toString y
  | LineTo x y => "L " ++ toString x ++ " " ++ toString y
  | ClosePath => "Z"
  end.

(** [[...].join(' ')] *)
Definition path_text (cmds : list PathCmd) : string :=
  String.concat " " (map cmd_text cmds).

Definition pieSliceCommands (startAngle endAngle : N) (isSelected : bool)
  : list PathCmd :=
  let currentRadius := if isSelected then radius + num 8 else radius in
  let angleDiff := endAngle - startAngle in
  if angleDiff >=? lit 3599 1 then
    [ MoveTo centerX (centerY - currentRadius);
      ArcTo currentRadius currentRadius true true
            centerX (centerY + currentRadius);
      ArcTo currentRadius currentRadius true true
            centerX (centerY - currentRadius);
      MoveTo centerX (centerY - innerRadius);
      ArcTo innerRadius innerRadius true false
            centerX (centerY + innerRadius);
      ArcTo innerRadius innerRadius true false
            centerX (centerY - innerRadius);
      ClosePath ]
  else
    let startAngleRad := (startAngle * Math_PI) / num 180 in
    let endAngleRad := (endAngle * Math_PI) / num 180 in
    let x1 := centerX + currentRadius * Math_cos startAngleRad in
    let y1 := centerY + currentRadius * Math_sin startAngleRad in
    let x2 := centerX + currentRadius * Math_cos endAngleRad in
    let y2 := centerY + currentRadius * Math_sin endAngleRad in
    let x3 := centerX + innerRadius * Math_cos endAngleRad in
    let y3 := centerY + innerRadius * Math_sin endAngleRad in
    let x4 := centerX + innerRadius * Math_cos startAngleRad in
    let y4 := centerY + innerRadius * Math_sin startAngleRad in
    let largeArcFlag := endAngle - startAngle >? num 180 in
    [ MoveTo x1 y1;
      ArcTo currentRadius currentRadius largeArcFlag true x2 y2;
      LineTo x3 y3;
      ArcTo innerRadius innerRadius largeArcFlag false x4 y4;
      ClosePath ].

Definition createPieSlice (startAngle endAngle : N) (color : string)
  (isSelected : bool) : string :=
  path_text (pieSliceCommands startAngle endAngle isSelected).

Record Point : Type := { x : N; y : N }.

Definition getSliceTouchArea (startAngle endAngle : N) : Point :=
  let midAngle := (startAngle + endAngle) / num 2 in
  let midAngleRad := (midAngle * Math_PI) / num 180 in
  let touchRadius := (radius + innerRadius) / num 2 in
  {| x := centerX + touchRadius * Math_cos midAngleRad;
     y := centerY + touchRadius * Math_sin midAngleRad |}.

(** *** First pass: the slices *)

Record Slice : Type := {
  item : PieChartData;
  index : nat;
  pathData : string;
  isSelected : bool;
  startAngle : N;
  endAngle : N;
  touchArea : Point
}.

Variable selectedIndex : option nat.

(** The callback of [data.map], with the captured [currentAngle] as an
    argument; the tail of the list is mapped from the [endAngle] it
    leaves behind. *)
Fixpoint mapSlices (items : list PieChartData) (index : nat)
  (currentAngle : N) : list Slice :=
  match items with
  | [] => []
  | item :: rest =>
      let percentage := amount item / total_ in
      let angle := percentage * num 360 in
      let startAngle := currentAngle in
      let endAngle := currentAngle + angle in
      let isSelected := same_index selectedIndex index in
      let pathData :=
        createPieSlice startAngle endAngle (color item) isSelected in
      let touchArea := getSliceTouchArea startAngle endAngle in
      {| item := item; index := index; pathData := pathData;
         isSelected := isSelected; startAngle := startAngle;
         endAngle := endAngle; touchArea := touchArea |}
        :: mapSlices rest (S index) endAngle
  end.

(** *** The rendered elements *)

Record PathElement : Type := {
  path_key : nat;
  d : string;
  fill : string;
  stroke : string;
  strokeWidth : N;
  opacity : N
}.

Definition renderPath (slice : Slice) : PathElement :=
  {| path_key := index slice;
     d := pathData slice;
     fill := color (item slice);
     stroke := "#fff";
     strokeWidth := num 2;
     opacity :=
       match selectedIndex with
       | None => num 1
       | Some _ => if isSelected slice then num 1 else lit 6 1
       end |}.

Record CircleElement : Type := {
  cx : N;
  cy : N;
  r : N;
  circle_fill : string
}.

Record TouchOverlay : Type := {
  touch_key : nat;
  left : N;
  top : N;
  width : N;
  height : N
}.

Definition renderOverlay (slice : Slice) : TouchOverlay :=
  let angleSpan := endAngle slice - startAngle slice in
  let touchSize := Math_max (num 60) ((angleSpan / num 360) * size) in
  {| touch_key := index slice;
     left := x (touchArea slice) - touchSize / num 2;
     top := y (touchArea slice) - touchSize / num 2;
     width := touchSize;
     height := touchSize |}.

End Geometry.

(** The centre of the donut: the detail of the selected item, or the
    fixed caption. *)
Inductive CenterLabel : Type :=
| SelectedLabel (selectedMaterial selectedAmount selectedPercentage : string)
| TotalLabel (totalLabel totalValue : string).

Record Rendered : Type := {
  svg_size : N;
  paths : list PathElement;
  centerCircle : CircleElement;
  overlays : list TouchOverlay;
  centerLabel : CenterLabel
}.

(** [selectedIndex !== null ? data[selectedIndex] : null]; an index past
    the end of the array reads [undefined]. *)
Definition selectedItem (data : list PieChartData)
  (selectedIndex : option nat) : option PieChartData :=
  match selectedIndex with
  | Some i => nth_error data i
  | None => None
  end.

Definition slicesData (data : list PieChartData) (size : N)
  (selectedIndex : option nat) : list Slice :=
  mapSlices size (total data) selectedIndex data 0 (num (-90)).

Definition renderCenterLabel (data : list PieChartData)
  (selectedIndex : option nat) : CenterLabel :=
  match selectedItem data selectedIndex with
  | Some selected =>
      SelectedLabel
        (name selected)
        ("₹" ++ toLocaleString (amount selected) "en-IN")
        (toFixed ((amount selected / total data) * num 100) 1 ++ "%")
  | None => TotalLabel "Total" "Expenses"
  end.

(** One render of the component: the props [data] and [size] and the
    state [selectedIndex] give the elements on the screen. *)
Definition CustomPieChart (data : list PieChartData)
  (sizeProp : option N) (selectedIndex : option nat) : Rendered :=
  let size := match sizeProp with Some s => s | None => num 240 end in
  let slices := slicesData data size selectedIndex in
  {| svg_size := size;
     paths := map (renderPath selectedIndex) slices;
     centerCircle :=
       {| cx := centerX size; cy := centerY size;
          r := innerRadius size - num 2; circle_fill := "#f8f9fa" |};
     overlays := map (renderOverlay size) slices;
     centerLabel := renderCenterLabel data selectedIndex |}.

(** A press on a slice: the next [selectedIndex], and the arguments
    handed to [onSlicePress] when the caller gave one. *)
Record Pressed : Type := {
  nextSelectedIndex : option nat;
  notified : option (PieChartData * nat)
}.

Definition handleSlicePress (hasOnSlicePress : bool)
  (selectedIndex : option nat) (item : PieChartData) (index : nat)
  : Pressed :=
  {| nextSelectedIndex :=
       if same_index selectedIndex index then None else Some index;
     notified := if hasOnSlicePress then Some (item, index) else None |}.

End CustomPieChart.

(** ** Shapes of a path, and sums of angles

    The two shapes a slice can take, over explicit centre and radii, the
    polar point they are built from, and the running angle of the first
    pass. *)

Section Shapes.

Context {N : Type} `{JSNumber N} `{Host N}.

Local Open Scope js_scope.

(** The point at angle [deg] (in degrees) and distance [rho] from the
    centre. *)
Definition polar (cx cy rho deg : N) : Point :=
  {| x := cx + rho * Math_cos ((deg * Math_PI) / num 180);
     y := cy + rho * Math_sin ((deg * Math_PI) / num 180) |}.

(** A closed ring: the outer circle as two half-circle arcs, top to
    bottom and back, swept clockwise; the inner circle likewise, swept
    the other way. *)
Definition ringPath (cx cy outer inner : N) : list PathCmd :=
  [ MoveTo cx (cy - outer);
    ArcTo outer outer true true cx (cy + outer);
    ArcTo outer outer true true cx (cy - outer);
    MoveTo cx (cy - inner);
    ArcTo inner inner true false cx (cy + inner);
    ArcTo inner inner true false cx (cy - inner);
    ClosePath ].

(** An annulus wedge between two angles: outer arc clockwise, a line to
    the inner end, inner arc back, close. *)
Definition wedgePath (cx cy outer inner startAngle endAngle : N)
  (largeArc : bool) : list PathCmd :=
  let outerStart := polar cx cy outer startAngle in
  let outerEnd := polar cx cy outer endAngle in
  let innerEnd := polar cx cy inner endAngle in
  let innerStart := polar cx cy inner startAngle in
  [ MoveTo (x outerStart) (y outerStart);
    ArcTo outer outer largeArc true (x outerEnd) (y outerEnd);
    LineTo (x innerEnd) (y innerEnd);
    ArcTo inner inner largeArc false (x innerStart) (y innerStart);
    ClosePath ].

(** The outer radius a slice is drawn with. *)
Definition drawnRadius (size : N) (isSelected : bool) : N :=
  if isSelected then radius size + num 8 else radius size.

(** The value of [currentAngle] once the callback has run over [items]. *)
Definition angleAfter (total_ : N) (items : list PieChartData)
  (currentAngle : N) : N :=
  fold_left
    (fun current item => current + (amount item / total_) * num 360)
    items currentAngle.

(** The sum of the spans of the slices, added up from 0 in list order. *)
Definition spanSum (slices : list Slice) : N :=
  fold_left (fun sum s => sum + (endAngle s - startAngle s))
    slices (num 0).

End Shapes.

(** ** Notions of the binary64 program *)

Local Open Scope string_scope.

Definition sampleItem {N : Type} (label : string) (value : N) : PieChartData :=
  {| name := label; amount := value; color := "#4CAF50" |}.

Definition zeroAmount (item : PieChartData) : Prop :=
  F64.isZero (amount item) = true.

Definition finiteNonzero (v : float) : Prop :=
  F64.isFinite v = true /\ F64.isZero v = false.

(** The path of an annulus segment drawn with a given outer radius: the
    ring from 359.9 degrees on, the wedge below. *)
Definition annulusPath {host : Host float} (size outer : float)
  (fromAngle toAngle : float) : list PathCmd :=
  if (359.9 <=? toAngle - fromAngle)%float
  then ringPath (centerX size) (centerY size) outer (innerRadius size)
  else wedgePath (centerX size) (centerY size) outer (innerRadius size)
         fromAngle toAngle (180 <? toAngle - fromAngle)%float.

(** The overlay drawn for a slice: keyed by the slice, a square of side
    [Math.max(60, span / 360 * size)] centred on the polar point at the
    middle angle, half-way between the inner and the outer radius. *)
Definition overlayOf {host : Host float} (size : float) (slice : Slice)
  (region : TouchOverlay) : Prop :=
  let centre :=
    polar (centerX size) (centerY size)
      ((radius size + innerRadius size) / 2)%float
      ((startAngle slice + endAngle slice) / 2)%float in
  touch_key region = index slice
  /\ width region
     = F64.max 60 ((endAngle slice - startAngle slice) / 360 * size)%float
  /\ height region = width region
  /\ left region = (x centre - width region / 2)%float
  /\ top region = (y centre - width region / 2)%float.

(** The data with the amount at position [i] replaced by 0. *)
Fixpoint zeroAt (i : nat) (data : list (PieChartData (N := float)))
  : list PieChartData :=
  match data, i with
  | [], _ => []
  | item :: rest, O =>
      {| name := name item; amount := 0%float; color := color item |} :: rest
  | item :: rest, S i' => item :: zeroAt i' rest
  end.

(** *** Sentences of the specification that the program does not satisfy

    Each is stated here as it is written; further down it is refuted at
    an input. *)

(** The sentence of the specification: an amount that is NaN or infinite
    counts as 0 in the total and gives its slice a span of 0, and every
    other slice has the angles it would have had if the amount were 0. *)
Definition nonfinite_amount_counts_as_zero : Prop :=
  forall (host : Host float) (data : list PieChartData) (size : float)
    (selection : option nat) (i : nat) (bad : PieChartData),
    nth_error data i = Some bad ->
    F64.isFinite (amount bad) = false ->
    total data = total (zeroAt i data)
    /\ (forall slice,
           nth_error (slicesData data size selection) i = Some slice ->
           (endAngle slice - startAngle slice)%float = 0%float)
    /\ (forall j slice reference,
           j <> i ->
           nth_error (slicesData data size selection) j = Some slice ->
           nth_error (slicesData (zeroAt i data) size selection) j
           = Some reference ->
           startAngle slice = startAngle reference
           /\ endAngle slice = endAngle reference).


(** The sentence of the specification: every slice has its overlay, and
    every overlay is at least 60 wide. *)
Definition every_overlay_at_least_60 : Prop :=
  forall (host : Host float) (data : list PieChartData) (size : float)
    (selection : option nat),
    let slices := slicesData data size selection in
    let regions := overlays (CustomPieChart data (Some size) selection) in
    List.length regions = List.length slices
    /\ forall i slice,
        nth_error slices i = Some slice ->
        exists region,
          nth_error regions i = Some region
          /\ overlayOf size slice region
          /\ (60 <=? width region)%float = true.

(** The sentence of the specification: the radius of the selected slice
    is the only thing the selection changes in the drawing, so everything
    of a path element but its path data is the same under any two
    selections, and so are the angles. *)
Definition radius_is_the_only_emphasis : Prop :=
  forall (host : Host float) (data : list PieChartData) (size : float)
    (one other : option nat),
    map (fun s => (startAngle s, endAngle s)) (slicesData data size one)
    = map (fun s => (startAngle s, endAngle s)) (slicesData data size other)
    /\ forall i drawn redrawn,
        nth_error (paths (CustomPieChart data (Some size) one)) i
        = Some drawn ->
        nth_error (paths (CustomPieChart data (Some size) other)) i
        = Some redrawn ->
        fill drawn = fill redrawn
        /\ stroke drawn = stroke redrawn
        /\ strokeWidth drawn = strokeWidth redrawn
        /\ opacity drawn = opacity redrawn.

(** * The materials of the application

    [MaterialContext]: the reducer behind the material list that the
    "Manage Materials" modal edits, and the provider's operations, which
    write the list to storage before they dispatch.  One operation runs
    to its end before the next starts. *)

Module Materials.

Record MaterialState : Type := {
  materials : list string;
  loading : bool;
  error : option string
}.

Inductive MaterialAction : Type :=
| SET_MATERIALS (payload : list string)
| ADD_MATERIAL (payload : string)
| REMOVE_MATERIAL (payload : string)
| SET_LOADING (payload : bool)
| SET_ERROR (payload : option string).

Definition initialState : MaterialState :=
  {| materials := []; loading := true; error := None |}.

Definition MATERIAL_TYPES : list string :=
  [ "Cement"; "Steel/TMT Bars"; "Bricks/Blocks"; "Sand"; "Aggregate/Gravel";
    "Ready Mix Concrete (RMC)"; "Timber/Wood"; "Paint"; "Tiles/Flooring";
    "Plumbing Materials"; "Electrical Materials"; "Glass"; "Aluminum";
    "Hardware/Fittings"; "Waterproofing Materials"; "Labor"; "Machinery";
    "Equipment Rental"; "Transportation"; "Other" ].

(** [list.includes(material)] *)
Definition includes (names : list string) (material : string) : bool :=
  existsb (String.eqb material) names.

(** [list.filter((m) => m !== material)] *)
Definition without (material : string) (names : list string)
  : list string :=
  filter (fun m => negb (String.eqb m material)) names.

Definition materialReducer (state : MaterialState) (action : MaterialAction)
  : MaterialState :=
  match action with
  | SET_MATERIALS payload =>
      {| materials := payload; loading := false; error := error state |}
  | ADD_MATERIAL payload =>
      if includes (materials state) payload then state
      else {| materials := (materials state ++ [payload])%list;
              loading := loading state; error := error state |}
  | REMOVE_MATERIAL payload =>
      {| materials := without payload (materials state);
         loading := loading state; error := error state |}
  | SET_LOADING payload =>
      {| materials := materials state; loading := payload;
         error := error state |}
  | SET_ERROR payload =>
      {| materials := materials state; loading := false; error := payload |}
  end.

(** The provider and the device: the reducer's state, and what is kept
    under the materials key of the storage ([None]: nothing). *)
Record Provider : Type := {
  state : MaterialState;
  stored : option (list string)
}.

(** How a call ends: the promise resolves, or it rejects with a
    message. *)
Inductive Outcome : Type :=
| Resolved
| Rejected (message : string).

(** [saveMaterials]: the write goes through, or the storage throws
    [failure]. *)
Definition saveMaterials (failure : option string) (names : list string)
  (provider : Provider) : Provider * Outcome :=
  match failure with
  | None => ({| state := state provider; stored := Some names |}, Resolved)
  | Some message => (provider, Rejected message)
  end.

(** [loadMaterials]: the stored list; the empty list when nothing is
    stored or the read throws. *)
Definition loadMaterials (readFails : bool) (provider : Provider)
  : list string :=
  if readFails then []
  else match stored provider with
       | Some names => names
       | None => []
       end.

Definition dispatch (action : MaterialAction) (provider : Provider)
  : Provider :=
  {| state := materialReducer (state provider) action;
     stored := stored provider |}.

Section Operations.

(** [String.prototype.trim] *)
Variable trim : string -> string.

Definition addMaterial (failure : option string) (material : string)
  (provider : Provider) : Provider * Outcome :=
  let trimmedMaterial := trim material in
  if String.eqb trimmedMaterial "" then
    (provider, Rejected "Material name cannot be empty")
  else if includes (materials (state provider)) trimmedMaterial then
    (provider, Rejected "Material already exists")
  else
    let updatedMaterials :=
      (materials (state provider) ++ [trimmedMaterial])%list in
    match saveMaterials failure updatedMaterials provider with
    | (saved, Resolved) =>
        (dispatch (ADD_MATERIAL trimmedMaterial) saved, Resolved)
    | (unsaved, Rejected message) => (unsaved, Rejected message)
    end.

Definition removeMaterial (failure : option string) (material : string)
  (provider : Provider) : Provider * Outcome :=
  let updatedMaterials := without material (materials (state provider)) in
  match saveMaterials failure updatedMaterials provider with
  | (saved, Resolved) => (dispatch (REMOVE_MATERIAL material) saved, Resolved)
  | (unsaved, Rejected message) => (unsaved, Rejected message)
  end.

Definition resetToDefaults (failure : option string) (provider : Provider)
  : Provider * Outcome :=
  let defaults := MATERIAL_TYPES in
  match saveMaterials failure defaults provider with
  | (saved, Resolved) => (dispatch (SET_MATERIALS defaults) saved, Resolved)
  | (unsaved, Rejected message) => (unsaved, Rejected message)
  end.

(** The effect run on mount.  Errors are caught: the promise always
    resolves. *)
Definition loadData (readFails : bool) (failure : option string)
  (provider : Provider) : Provider :=
  let loading := dispatch (SET_LOADING true) provider in
  let materials := loadMaterials readFails loading in
  match materials with
  | [] =>
      let defaults := MATERIAL_TYPES in
      match saveMaterials failure defaults loading with
      | (saved, Resolved) => dispatch (SET_MATERIALS defaults) saved
      | (unsaved, Rejected _) =>
          dispatch (SET_ERROR (Some "Failed to load materials")) unsaved
      end
  | _ => dispatch (SET_MATERIALS materials) loading
  end.

(** What the user does in the modal, each with the fate of its write. *)
Inductive Operation : Type :=
| Add (material : string) (failure : option string)
| Remove (material : string) (failure : option string)
| Reset (failure : option string).

Definition perform (provider : Provider) (operation : Operation) : Provider :=
  match operation with
  | Add material failure => fst (addMaterial failure material provider)
  | Remove material failure => fst (removeMaterial failure material provider)
  | Reset failure => fst (resetToDefaults failure provider)
  end.

End Operations.



End Materials.

(** * Contacts

    [contactService] as the contact picker uses it.  A string is the
    sequence of its characters; [toLowerCase] and [trim] are the host's. *)

Module Contacts.

Record ContactInfo : Type := {
  id : string;
  name : string;
  phoneNumbers : list string
}.

(** [text.includes(part)] *)
Fixpoint includes (text part : string) : bool :=
  if String.prefix part text then true
  else match text with
       | EmptyString => false
       | String _ rest => includes rest part
       end.

Section Search.

Variables toLowerCase trim : string -> string.

Definition searchContacts (contacts : list ContactInfo) (query : string)
  : list ContactInfo :=
  let lowerQuery := trim (toLowerCase query) in
  if String.eqb lowerQuery "" then contacts
  else filter (fun contact => includes (toLowerCase (name contact)) lowerQuery)
         contacts.

End Search.

Definition getContactPhone (contact : ContactInfo) : option string :=
  match phoneNumbers contact with
  | [] => None
  | phone :: _ => Some phone
  end.

(** The characters that [/[^\d+]/g] leaves in place: the digits and the
    plus sign. *)
Definition phoneCharacter (c : ascii) : bool :=
  ((48 <=? nat_of_ascii c)%nat && (nat_of_ascii c <=? 57)%nat)
  || Ascii.eqb c "+"%char.

(** [phoneNumber.replace(/[^\d+]/g, '')] *)
Fixpoint formatPhoneForWhatsApp (phoneNumber : string) : string :=
  match phoneNumber with
  | EmptyString => EmptyString
  | String c rest =>
      if phoneCharacter c then String c (formatPhoneForWhatsApp rest)
      else formatPhoneForWhatsApp rest
  end.

(** Every character of a string passes the test. *)
Fixpoint allCharacters (test : ascii -> bool) (text : string) : bool :=
  match text with
  | EmptyString => true
  | String c rest => test c && allCharacters test rest
  end.

End Contacts.

(** * Validation of an amount

    [validateAmount] of the validation service, which every amount passes
    before a transaction is stored. *)

Module Validation.

Definition MIN_AMOUNT : float := 0%float.
Definition MAX_AMOUNT : float := 999999999%float.

(** [number | string] *)
Inductive AmountInput : Type :=
| AmountNumber (value : float)
| AmountText (text : string).

Section Validate.

(** [parseFloat], and [toLocaleString()] in the locale of the device. *)
Variable parseFloat : string -> float.
Variable localeString : float -> string.

Definition numberOf (amount : AmountInput) : float :=
  match amount with
  | AmountText text => parseFloat text
  | AmountNumber value => value
  end.

Definition validateAmount (amount : AmountInput) : option string :=
  let numAmount := numberOf amount in
  if F64.isNaN numAmount then Some "Amount must be a valid number"
  else if (numAmount <=? MIN_AMOUNT)%float then
    Some "Amount must be greater than 0"
  else if (MAX_AMOUNT <? numAmount)%float then
    Some ("Amount cannot exceed " ++ localeString MAX_AMOUNT)
  else None.

End Validate.

End Validation.

(** * Objects used as maps

    The reporting screen and the chart service collect sums in plain
    objects keyed by a material's name.  An object is the list of its own
    properties in the order of their creation.  Reading a key that is not
    an own property falls through to [Object.prototype]: for the names in
    [inheritedNames] that is not [undefined], and the properties below
    that speak of such objects are stated for keys outside that list. *)

Module JSObject.

Definition t (V : Type) : Type := list (string * V).

Definition inheritedNames : list string :=
  [ "constructor"; "hasOwnProperty"; "isPrototypeOf"; "propertyIsEnumerable";
    "toLocaleString"; "toString"; "valueOf"; "__proto__";
    "__defineGetter__"; "__defineSetter__"; "__lookupGetter__";
    "__lookupSetter__" ].

Definition inherited (key : string) : bool :=
  existsb (String.eqb key) inheritedNames.

(** The number a key stands for when it is an array index: a decimal
    numeral without leading zeros, below 2^32 - 1. *)
Definition digitValue (c : ascii) : option N :=
  let code := N_of_ascii c in
  if ((48 <=? code) && (code <=? 57))%N then Some (code - 48)%N else None.

Fixpoint decimal (text : string) (value : N) : option N :=
  match text with
  | EmptyString => Some value
  | String c rest =>
      match digitValue c with
      | Some digit => decimal rest (10 * value + digit)%N
      | None => None
      end
  end.

Definition arrayIndex (key : string) : option N :=
  match key with
  | EmptyString => None
  | String c rest =>
      if Ascii.eqb c "0"%char then
        match rest with EmptyString => Some 0%N | _ => None end
      else
        match decimal key 0 with
        | Some value => if (value <? 4294967295)%N then Some value else None
        | None => None
        end
  end.

Section Values.

Context {V : Type}.

Definition empty : t V := [].

(** [object[key]] for a key that is an own property or is not inherited *)
Fixpoint get (object : t V) (key : string) : option V :=
  match object with
  | [] => None
  | (k, v) :: rest => if String.eqb k key then Some v else get rest key
  end.

(** [object[key] = value]: an existing property keeps its place, a new one
    is created last. *)
Fixpoint set (object : t V) (key : string) (value : V) : t V :=
  match object with
  | [] => [(key, value)]
  | (k, v) :: rest =>
      if String.eqb k key then (k, value) :: rest
      else (k, v) :: set rest key value
  end.

(** The order of enumeration: the array indices in ascending order, then
    the other keys in the order of their creation. *)
Fixpoint insertIndexed (entry : N * (string * V))
  (sorted : list (N * (string * V))) : list (N * (string * V)) :=
  match sorted with
  | [] => [entry]
  | first :: rest =>
      if (fst entry <? fst first)%N then entry :: first :: rest
      else first :: insertIndexed entry rest
  end.

Definition indexed (object : t V) : list (N * (string * V)) :=
  flat_map
    (fun entry =>
       match arrayIndex (fst entry) with
       | Some value => [(value, entry)]
       | None => []
       end)
    object.

Definition named (object : t V) : t V :=
  filter
    (fun entry =>
       match arrayIndex (fst entry) with Some _ => false | None => true end)
    object.

(** [Object.entries(object)] *)
Definition entries (object : t V) : list (string * V) :=
  (map snd (fold_right insertIndexed [] (indexed object)) ++ named object)%list.

(** [Object.values(object)] *)
Definition values (object : t V) : list V := map snd (entries object).

End Values.

(** [callback(element, index)] over an array *)
Definition mapIndexed {A B : Type} (callback : A -> nat -> B) (array : list A)
  : list B :=
  map (fun pair => callback (snd pair) (fst pair))
    (combine (seq 0 (List.length array)) array).

End JSObject.

(** * Transactions *)

Module Transactions.

(** ['in' | 'out'] *)
Inductive TransactionType : Type :=
| PaymentIn
| PaymentOut.

Record Transaction : Type := {
  id : string;
  amount : float;
  partyName : string;
  material : string;
  project : string;
  type : TransactionType;
  date : string
}.

Definition isIn (transaction : Transaction) : bool :=
  match type transaction with PaymentIn => true | PaymentOut => false end.

Definition isOut (transaction : Transaction) : bool :=
  match type transaction with PaymentOut => true | PaymentIn => false end.

End Transactions.

(** * The reporting screen

    What [ReportingScreen] computes from the transactions of the selected
    month before it draws the chart. *)

Module Reporting.

Definition CHART_COLORS : list string :=
  [ "#FF6384"; "#36A2EB"; "#FFCE56"; "#4BC0C0"; "#9966FF"; "#FF9F40";
    "#E74C3C"; "#C9CBCF"; "#2ECC71"; "#3498DB" ].

Record MonthlyTotals : Type := {
  totalIn : float;
  totalOut : float;
  balance : float;
  transactionCount : nat;
  incomeCount : nat;
  expenseCount : nat
}.

Definition sumAmounts (transactions : list Transactions.Transaction) : float :=
  fold_left (fun sum t => (sum + Transactions.amount t)%float)
    transactions 0%float.

Definition calculateMonthlyTotals
  (monthlyTransactions : list Transactions.Transaction) : MonthlyTotals :=
  let totalIn :=
    sumAmounts (filter Transactions.isIn monthlyTransactions) in
  let totalOut :=
    sumAmounts (filter Transactions.isOut monthlyTransactions) in
  {| totalIn := totalIn;
     totalOut := totalOut;
     balance := (totalIn - totalOut)%float;
     transactionCount := List.length monthlyTransactions;
     incomeCount :=
       List.length (filter Transactions.isIn monthlyTransactions);
     expenseCount :=
       List.length (filter Transactions.isOut monthlyTransactions) |}.

(** [(value || 0)]: an absent sum and a sum that is 0 or NaN read as 0. *)
Definition orZero (value : option float) : float :=
  match value with
  | Some sum => if F64.isZero sum || F64.isNaN sum then 0%float else sum
  | None => 0%float
  end.

(** The body of the [forEach] of [getExpensesByMaterial]. *)
Definition addExpense (expenses : JSObject.t float)
  (transaction : Transactions.Transaction) : JSObject.t float :=
  let material := Transactions.material transaction in
  JSObject.set expenses material
    (orZero (JSObject.get expenses material)
     + Transactions.amount transaction)%float.

Definition getExpensesByMaterial
  (monthlyTransactions : list Transactions.Transaction) : JSObject.t float :=
  fold_left addExpense (filter Transactions.isOut monthlyTransactions)
    JSObject.empty.

(** The data handed to the chart.  (The two legend fields of the items
    are not read by the chart and are left out.) *)
Definition chartItem (entry : string * float) (index : nat)
  : PieChartData (N := float) :=
  {| name := fst entry;
     amount := snd entry;
     color := nth (index mod List.length CHART_COLORS) CHART_COLORS "" |}.

Definition pieChartData
  (monthlyTransactions : list Transactions.Transaction)
  : list (PieChartData (N := float)) :=
  JSObject.mapIndexed chartItem
    (JSObject.entries (getExpensesByMaterial monthlyTransactions)).

(** [Math.min] on two arguments: NaN if either is NaN, and -0 is smaller
    than +0. *)
Definition Math_min (a b : float) : float :=
  if PrimFloat.is_nan a || PrimFloat.is_nan b then PrimFloat.nan
  else if PrimFloat.ltb a b then a
  else if PrimFloat.ltb b a then b
  else if PrimFloat.get_sign a then a else b.

(** The chart section of the screen: present when there is data, and
    then the chart at size [Math.min(width - 96, 240)]. *)
Definition chartSection {host : Host float} (width : float)
  (monthlyTransactions : list Transactions.Transaction)
  (selectedIndex : option nat) : option Rendered :=
  match pieChartData monthlyTransactions with
  | [] => None
  | data =>
      Some (CustomPieChart data
              (Some (Math_min (width - 96) 240)%float) selectedIndex)
  end.

(** The sum kept for a material after its expenses [transactions], in
    their order, starting from nothing. *)
Definition accumulate (transactions : list Transactions.Transaction)
  : option float :=
  fold_left
    (fun sum t => Some (orZero sum + Transactions.amount t)%float)
    transactions None.

(** The expenses of the month booked on a material. *)
Definition expensesOf (material : string)
  (monthlyTransactions : list Transactions.Transaction)
  : list Transactions.Transaction :=
  filter
    (fun t => Transactions.isOut t
              && String.eqb (Transactions.material t) material)
    monthlyTransactions.

End Reporting.

(** * The chart service

    [generatePieChartData] of [services/chartService.ts] and of
    [core/services/implementations/ChartService.ts], which hold the same
    code, with the [groupByMaterial] that it calls. *)

Module ChartService.

(** ['in' | 'out' | 'both'] *)
Inductive ChartType : Type :=
| OnlyIn
| OnlyOut
| Both.

Record ChartDataItem : Type := {
  name : string;
  amount : float;
  percentage : float;
  color : string
}.

(** The body of the [forEach] of [groupByMaterial].  The group of a
    material is created at its first transaction and every transaction is
    pushed on the group of its material.  For a material named like a
    member of [Object.prototype] the test [!grouped[materialName]] finds
    that member, which is truthy and has no [push]: the call of [push]
    throws a TypeError, here [None]. *)
Definition addToGroup (grouped : JSObject.t (list Transactions.Transaction))
  (transaction : Transactions.Transaction)
  : option (JSObject.t (list Transactions.Transaction)) :=
  let materialName := Transactions.material transaction in
  match JSObject.get grouped materialName with
  | Some group =>
      Some (JSObject.set grouped materialName (group ++ [transaction])%list)
  | None =>
      if JSObject.inherited materialName then None
      else Some (JSObject.set grouped materialName ([] ++ [transaction])%list)
  end.

Fixpoint forEachGroup (transactions : list Transactions.Transaction)
  (grouped : JSObject.t (list Transactions.Transaction))
  : option (JSObject.t (list Transactions.Transaction)) :=
  match transactions with
  | [] => Some grouped
  | transaction :: rest =>
      match addToGroup grouped transaction with
      | Some next => forEachGroup rest next
      | None => None
      end
  end.

Definition groupByMaterial (transactions : list Transactions.Transaction)
  : option (JSObject.t (list Transactions.Transaction)) :=
  forEachGroup transactions JSObject.empty.

(** The transactions booked on a material, in their order. *)
Definition transactionsOf (material : string)
  (transactions : list Transactions.Transaction)
  : list Transactions.Transaction :=
  filter (fun t => String.eqb (Transactions.material t) material)
    transactions.

(** What the grouping holds for a material once [transactions] have been
    grouped: nothing for a material without transactions. *)
Definition held (material : string)
  (transactions : list Transactions.Transaction)
  : option (list Transactions.Transaction) :=
  match transactionsOf material transactions with
  | [] => None
  | group => Some group
  end.

(** The material of the transaction is not named like a member of
    [Object.prototype]. *)
Definition plain (t : Transactions.Transaction) : Prop :=
  JSObject.inherited (Transactions.material t) = false.

(** [t.type === type] *)
Definition hasType (type : ChartType) (t : Transactions.Transaction) : bool :=
  match type, Transactions.type t with
  | OnlyIn, Transactions.PaymentIn => true
  | OnlyOut, Transactions.PaymentOut => true
  | _, _ => false
  end.

Definition filteredTransactions (type : ChartType)
  (transactions : list Transactions.Transaction)
  : list Transactions.Transaction :=
  match type with
  | Both => transactions
  | _ => filter (hasType type) transactions
  end.

(** The callback of the [reduce] over the transactions of a material. *)
Definition addSigned (type : ChartType) (sum : float)
  (t : Transactions.Transaction) : float :=
  match type with
  | Both =>
      (sum + (if Transactions.isIn t then Transactions.amount t
              else - Transactions.amount t))%float
  | _ => (sum + Transactions.amount t)%float
  end.

Definition materialTotals (type : ChartType)
  (materialGroups : JSObject.t (list Transactions.Transaction))
  : JSObject.t float :=
  fold_left
    (fun totals entry =>
       JSObject.set totals (fst entry)
         (fold_left (addSigned type) (snd entry) 0%float))
    (JSObject.entries materialGroups) JSObject.empty.

Definition total (totals : JSObject.t float) : float :=
  fold_left (fun sum amount => (sum + PrimFloat.abs amount)%float)
    (JSObject.values totals) 0%float.

Definition chartItem (total : float) (entry : string * float) (index : nat)
  : ChartDataItem :=
  {| name := fst entry;
     amount := PrimFloat.abs (snd entry);
     percentage := (PrimFloat.abs (snd entry) / total * 100)%float;
     color :=
       nth (index mod List.length Reporting.CHART_COLORS)
         Reporting.CHART_COLORS "" |}.

(** [(a, b) => b.amount - a.amount] *)
Definition byAmountDescending (a b : ChartDataItem) : float :=
  (amount b - amount a)%float.

(** The array before it is sorted. *)
Definition chartData (totals : JSObject.t float) : list ChartDataItem :=
  JSObject.mapIndexed (chartItem (total totals)) (JSObject.entries totals).

Section Sorting.

(** [Array.prototype.sort] of the host, with its comparison function.
    The order it gives is fixed by the language only for a consistent
    comparison function, which [byAmountDescending] is not when an amount
    is NaN. *)
Variable sort :
  (ChartDataItem -> ChartDataItem -> float) ->
  list ChartDataItem -> list ChartDataItem.

Definition generatePieChartData
  (transactions : list Transactions.Transaction) (type : ChartType)
  : option (list ChartDataItem) :=
  match groupByMaterial (filteredTransactions type transactions) with
  | None => None
  | Some materialGroups =>
      let totals := materialTotals type materialGroups in
      if F64.isZero (total totals) then Some []
      else Some (sort byAmountDescending (chartData totals))
  end.

End Sorting.

(** A stable sort by insertion: [item] goes before the first element that
    the comparison function puts after it.  (A comparison that gives NaN
    counts as 0.) *)
Fixpoint insertSorted {A : Type} (comparefn : A -> A -> float) (item : A)
  (sorted : list A) : list A :=
  match sorted with
  | [] => [item]
  | first :: rest =>
      if PrimFloat.ltb 0 (comparefn first item) then item :: first :: rest
      else first :: insertSorted comparefn item rest
  end.

Definition stableSort {A : Type} (comparefn : A -> A -> float)
  (array : list A) : list A :=
  fold_left (fun sorted item => insertSorted comparefn item sorted) array [].

End ChartService.

(** A transaction for the examples. *)
Definition sampleTransaction (material : string) (amount : float)
  (type : Transactions.TransactionType) : Transactions.Transaction :=
  {| Transactions.id := "t";
     Transactions.amount := amount;
     Transactions.partyName := "Party";
     Transactions.material := material;
     Transactions.project := "Site";
     Transactions.type := type;
     Transactions.date := "2024-01-15" |}.

(** * Proofs *)

Example lits :
  (lit (-90) 0 = (-90)%float) /\ (lit 3599 1 = 359.9%float) /\
  (lit 55 2 = 0.55%float) /\ (lit 3141592653589793 15 = 3.141592653589793%float)
  /\ (lit 6 1 = 0.6%float) /\ lit 0 0 = 0%float.
Proof. repeat split; reflexivity. Qed.

(** ** Facts of binary64 arithmetic

    Derived from the specification of the primitive operations
    ([SpecFloat]). *)

Module F64Facts.

Local Open Scope float_scope.

Lemma isFinite_spec x :
  F64.isFinite x = negb (F64.sf_nonfinite (Prim2SF x)).
Proof.
  unfold F64.isFinite. rewrite FloatAxioms.ltb_spec, FloatAxioms.abs_spec.
  change (Prim2SF infinity) with (S754_infinity false).
  destruct (Prim2SF x) as [s|s| |s m e]; reflexivity.
Qed.

Lemma nan_spec x : Prim2SF x = S754_nan -> x = nan.
Proof. intros E. apply Prim2SF_inj. rewrite E. reflexivity. Qed.

Lemma isNaN_true x : F64.isNaN x = true <-> x = nan.
Proof.
  unfold F64.isNaN, is_nan. rewrite FloatAxioms.eqb_spec. split.
  - intros E. apply nan_spec. unfold SFeqb in E.
    destruct (Prim2SF x) as [s|s| |s m e]; trivial.
    + discriminate E.
    + destruct s; discriminate E.
    + simpl in E. destruct s; rewrite Z.compare_refl, Pos.compare_cont_refl in E; discriminate E.
  - intros ->. reflexivity.
Qed.

Lemma add_nan_r x : x + nan = nan.
Proof.
  apply Prim2SF_inj. rewrite FloatAxioms.add_spec.
  change (Prim2SF nan) with S754_nan.
  destruct (Prim2SF x); reflexivity.
Qed.

Lemma add_nan_l x : nan + x = nan.
Proof. apply Prim2SF_inj. rewrite FloatAxioms.add_spec. reflexivity. Qed.

Lemma mul_nan_l x : nan * x = nan.
Proof. apply Prim2SF_inj. rewrite FloatAxioms.mul_spec. reflexivity. Qed.

Lemma add_nonfinite_l x y :
  F64.isFinite x = false -> F64.isFinite (x + y) = false.
Proof.
  rewrite !isFinite_spec, FloatAxioms.add_spec. unfold SF64add.
  destruct (Prim2SF x) as [s|s| |s m e]; try discriminate; intros _;
    destruct (Prim2SF y) as [t|t| |t n f]; try reflexivity;
    destruct s, t; reflexivity.
Qed.

Lemma add_nonfinite_r x y :
  F64.isFinite y = false -> F64.isFinite (x + y) = false.
Proof.
  rewrite !isFinite_spec, FloatAxioms.add_spec. unfold SF64add.
  destruct (Prim2SF y) as [t|t| |t n f]; try discriminate; intros _;
    destruct (Prim2SF x) as [s|s| |s m e]; try reflexivity;
    destruct s, t; reflexivity.
Qed.

Lemma div_nonfinite x y :
  F64.isFinite x = false -> F64.isFinite y = false -> x / y = nan.
Proof.
  rewrite !isFinite_spec. intros Hx Hy.
  apply Prim2SF_inj. rewrite FloatAxioms.div_spec. unfold SF64div.
  destruct (Prim2SF x) as [s|s| |s m e]; try discriminate;
    destruct (Prim2SF y) as [t|t| |t n f]; try discriminate; reflexivity.
Qed.

(** Order *)

Lemma SFcompare_antisym a b :
  SFcompare b a = option_map CompOpp (SFcompare a b).
Proof.
  destruct a as [s|s| |s m e], b as [t|t| |t n f]; simpl;
    try reflexivity; try (destruct s; reflexivity);
    try (destruct t; reflexivity); try (destruct s, t; reflexivity).
  destruct s, t; try reflexivity;
    rewrite (Z.compare_antisym e f);
    destruct (e ?= f)%Z; simpl; try reflexivity;
    rewrite (Pos.compare_cont_antisym m n Eq); reflexivity.
Qed.

Lemma ltb_leb x y : (x <? y) = true -> (x <=? y) = true.
Proof.
  rewrite FloatAxioms.ltb_spec, FloatAxioms.leb_spec. unfold SFltb, SFleb.
  destruct (SFcompare _ _) as [[ | | ]|]; easy.
Qed.

Lemma ltb_not_geb x y : (x <? y) = true -> (y <=? x) = false.
Proof.
  rewrite FloatAxioms.ltb_spec, FloatAxioms.leb_spec. unfold SFltb, SFleb.
  rewrite (SFcompare_antisym (Prim2SF x) (Prim2SF y)).
  destruct (SFcompare _ _) as [[ | | ]|]; easy.
Qed.

(** Zeros and finite numbers *)

Lemma isZero_spec x :
  F64.isZero x = true -> exists s, Prim2SF x = S754_zero s.
Proof.
  unfold F64.isZero. rewrite FloatAxioms.eqb_spec.
  change (Prim2SF 0) with (S754_zero false). unfold SFeqb.
  destruct (Prim2SF x) as [s|s| |s m e]; simpl; try discriminate.
  - eauto.
  - destruct s; discriminate.
  - destruct s; discriminate.
Qed.

Lemma finite_nonzero_spec x :
  F64.isFinite x = true -> F64.isZero x = false ->
  exists s m e, Prim2SF x = S754_finite s m e.
Proof.
  rewrite isFinite_spec. unfold F64.isZero. rewrite FloatAxioms.eqb_spec.
  change (Prim2SF 0) with (S754_zero false). unfold SFeqb.
  destruct (Prim2SF x) as [s|s| |s m e]; simpl; try discriminate.
  eauto.
Qed.




Lemma div_zero_l z x :
  F64.isZero z = true -> F64.isFinite x = true -> F64.isZero x = false ->
  F64.isZero (z / x) = true.
Proof.
  intros Hz Hf Hn.
  destruct (finite_nonzero_spec x Hf Hn) as (s & m & e & E).
  destruct (isZero_spec z Hz) as [t Et].
  unfold F64.isZero. rewrite FloatAxioms.eqb_spec, FloatAxioms.div_spec, E, Et.
  reflexivity.
Qed.

Lemma mul_zero_l z x :
  F64.isZero z = true -> F64.isFinite x = true -> F64.isZero x = false ->
  F64.isZero (z * x) = true.
Proof.
  intros Hz Hf Hn.
  destruct (finite_nonzero_spec x Hf Hn) as (s & m & e & E).
  destruct (isZero_spec z Hz) as [t Et].
  unfold F64.isZero. rewrite FloatAxioms.eqb_spec, FloatAxioms.mul_spec, E, Et.
  reflexivity.
Qed.

(** The quotient of a finite non-zero double by itself is exactly 1:
    the division core shifts the mantissa by 53 bits, the remainder is
    zero and no rounding takes place. *)



(** [Math.max] *)

Lemma max_floor x :
  F64.isNaN x = false -> (60 <=? F64.max 60 x) = true.
Proof.
  unfold F64.max, F64.isNaN. intros ->.
  change (is_nan 60 || false) with false. cbv iota.
  destruct (60 <? x) eqn:E1.
  - apply ltb_leb, E1.
  - destruct (x <? 60); reflexivity.
Qed.

End F64Facts.

(** ** The first pass, in any arithmetic *)

Section SliceFacts.

Context {N : Type} `{JSNumber N} `{Host N}.

Local Open Scope js_scope.

Variables (size total_ : N) (selectedIndex : option nat).



(** The slice at position [i] belongs to the data point at position [i],
    carries its position as [index], and starts where the slices before
    it have left [currentAngle]. *)
Lemma mapSlices_nth items first current i slice :
  nth_error (mapSlices size total_ selectedIndex items first current) i
  = Some slice ->
  nth_error items i = Some (item slice)
  /\ index slice = (first + i)%nat
  /\ isSelected slice = same_index selectedIndex (first + i)%nat
  /\ startAngle slice = angleAfter total_ (firstn i items) current
  /\ endAngle slice
     = startAngle slice + (amount (item slice) / total_) * num 360
  /\ pathData slice
     = createPieSlice size (startAngle slice) (endAngle slice)
         (color (item slice)) (isSelected slice)
  /\ touchArea slice
     = getSliceTouchArea size (startAngle slice) (endAngle slice).
Proof.
  revert first current i.
  induction items as [|it rest IH]; intros first current i Hnth.
  - destruct i; discriminate Hnth.
  - destruct i as [|i]; simpl in Hnth.
    + injection Hnth as <-. simpl. rewrite Nat.add_0_r. tauto.
    + apply IH in Hnth. simpl.
      rewrite Nat.add_succ_r. exact Hnth.
Qed.



(** Start and end angles do not read the selection. *)
Lemma mapSlices_angles_selection other items first current :
  map (fun s => (startAngle s, endAngle s))
    (mapSlices size total_ selectedIndex items first current)
  = map (fun s => (startAngle s, endAngle s))
      (mapSlices size total_ other items first current).
Proof.
  revert first current.
  induction items as [|it rest IH]; intros first current; simpl.
  - reflexivity.
  - now rewrite IH.
Qed.

End SliceFacts.

(** ** The two branches of the path builder *)

Section PathBranches.

Context {N : Type} `{JSNumber N} `{Host N}.

Local Open Scope js_scope.

Lemma pieSliceCommands_ring size startAngle endAngle isSelected :
  (endAngle - startAngle >=? lit 3599 1) = true ->
  pieSliceCommands size startAngle endAngle isSelected
  = ringPath (centerX size) (centerY size)
      (drawnRadius size isSelected) (innerRadius size).
Proof.
  intros Hfull. unfold pieSliceCommands. rewrite Hfull. reflexivity.
Qed.

Lemma pieSliceCommands_wedge size startAngle endAngle isSelected :
  (endAngle - startAngle >=? lit 3599 1) = false ->
  pieSliceCommands size startAngle endAngle isSelected
  = wedgePath (centerX size) (centerY size)
      (drawnRadius size isSelected) (innerRadius size)
      startAngle endAngle (endAngle - startAngle >? num 180).
Proof.
  intros Hpart. unfold pieSliceCommands. rewrite Hpart. reflexivity.
Qed.

End PathBranches.

(** ** The first pass in binary64 *)

Section Binary64Slices.

Context {host : Host float}.

Local Open Scope float_scope.

Import F64Facts.








End Binary64Slices.

Lemma createPieSlice_annulus {host : Host float} size fromAngle toAngle
  color isSelected :
  createPieSlice size fromAngle toAngle color isSelected
  = path_text
      (annulusPath size
         (if isSelected then radius size + 8 else radius size)%float
         fromAngle toAngle).
Proof.
  unfold createPieSlice, annulusPath.
  destruct (359.9 <=? toAngle - fromAngle)%float eqn:Hfull.
  - rewrite pieSliceCommands_ring by exact Hfull. reflexivity.
  - rewrite pieSliceCommands_wedge by exact Hfull. reflexivity.
Qed.

Lemma overlay_of_slice {host : Host float} data size selection i slice :
  nth_error (slicesData data size selection) i = Some slice ->
  exists region,
    nth_error (overlays (CustomPieChart data (Some size) selection)) i
    = Some region
    /\ region = renderOverlay size slice
    /\ overlayOf size slice region.
Proof.
  intros Hnth. exists (renderOverlay size slice). split.
  - simpl. now rewrite nth_error_map, Hnth.
  - split; [reflexivity|].
    apply mapSlices_nth in Hnth.
    destruct Hnth as (_ & _ & _ & _ & _ & _ & Htouch).
    unfold overlayOf, renderOverlay. simpl. rewrite Htouch.
    repeat split; reflexivity.
Qed.

Section ExactSlices.

Context {host : Host Qc}.

Local Open Scope Qc_scope.

Lemma exact_span_sum size total_ selection (items : list PieChartData)
  first current sum amounts :
  fold_left (fun sum s => sum + (endAngle s - startAngle s))
    (mapSlices size total_ selection items first current) sum
  = sum
    + (fold_left (fun sum item => sum + amount item) items amounts
       - amounts) / total_ * Q2Qc 360.
Proof.
  revert first current sum amounts.
  induction items as [|item rest IH]; intros first current sum amounts;
    simpl.
  - unfold Qcdiv. ring.
  - rewrite (IH _ _ _ (amounts + amount item)).
    change (Exact.literal 360 0) with (Q2Qc 360).
    unfold Qcdiv. ring.
Qed.

(** In exact arithmetic the spans add up to the full circle. *)
Lemma exact_full_circle (data : list PieChartData) size selection :
  total data <> 0 ->
  spanSum (slicesData data size selection) = Q2Qc 360.
Proof.
  intros Hpos. unfold spanSum, slicesData.
  change (fold_left (fun sum s => add sum (sub (endAngle s) (startAngle s))))
    with (fold_left (fun sum s => sum + (endAngle s - startAngle s))).
  rewrite (exact_span_sum _ _ _ _ _ _ _ (num 0)).
  change (fold_left (fun sum item => sum + amount item) data (num 0))
    with (total data).
  change (num 0) with 0.
  field. exact Hpos.
Qed.

End ExactSlices.

(** ** Amounts that are not finite numbers *)

Section NonFiniteAmounts.

Context {host : Host float}.

Local Open Scope float_scope.

Import F64Facts.

Variables (size total_ : float) (selection : option nat).

Lemma sum_nonfinite_from (data : list PieChartData) sum :
  F64.isFinite sum = false ->
  F64.isFinite (fold_left (fun sum item => sum + amount item) data sum)
  = false.
Proof.
  revert sum. induction data as [|item rest IH]; intros sum Hsum; simpl.
  - exact Hsum.
  - apply IH. now apply add_nonfinite_l.
Qed.

Lemma sum_nonfinite (data : list PieChartData) i bad sum :
  nth_error data i = Some bad ->
  F64.isFinite (amount bad) = false ->
  F64.isFinite (fold_left (fun sum item => sum + amount item) data sum)
  = false.
Proof.
  revert i sum. induction data as [|item rest IH]; intros i sum Hnth Hbad.
  - destruct i; discriminate Hnth.
  - destruct i as [|i]; simpl in Hnth |- *.
    + injection Hnth as ->.
      apply sum_nonfinite_from. now apply add_nonfinite_r.
    + eapply IH; eassumption.
Qed.

(** Once [currentAngle] is NaN it stays NaN. *)
Lemma mapSlices_from_nan (items : list PieChartData) first j slice :
  nth_error (mapSlices size total_ selection items first nan) j
  = Some slice ->
  startAngle slice = nan /\ endAngle slice = nan.
Proof.
  revert first j.
  induction items as [|item rest IH]; intros first j Hnth.
  - destruct j; discriminate Hnth.
  - destruct j as [|j]; simpl in Hnth.
    + injection Hnth as <-. simpl. split; [reflexivity|].
      apply add_nan_l.
    + change (add nan (mul (div (amount item) total_) (num 360)))
        with (nan + amount item / total_ * 360) in Hnth.
      rewrite add_nan_l in Hnth. eapply IH; eassumption.
Qed.

(** A non-finite amount over a non-finite total makes the end angle of
    its slice NaN, and with it every angle after. *)
Lemma mapSlices_nonfinite (items : list PieChartData) first current i bad :
  F64.isFinite total_ = false ->
  nth_error items i = Some bad ->
  F64.isFinite (amount bad) = false ->
  forall j slice,
    nth_error (mapSlices size total_ selection items first current) j
    = Some slice ->
    (i <= j)%nat ->
    endAngle slice = nan /\ ((i < j)%nat -> startAngle slice = nan).
Proof.
  intros Htotal. revert first current i.
  induction items as [|item rest IH];
    intros first current i Hnth Hbad j slice Hj Hle.
  - destruct i; discriminate Hnth.
  - destruct i as [|i]; simpl in Hnth.
    + injection Hnth as ->. simpl in Hj.
      change (add current (mul (div (amount bad) total_) (num 360)))
        with (current + amount bad / total_ * 360) in Hj.
      rewrite (div_nonfinite _ _ Hbad Htotal), mul_nan_l, add_nan_r in Hj.
      destruct j as [|j]; simpl in Hj.
      * injection Hj as <-. simpl. split; [reflexivity | lia].
      * apply mapSlices_from_nan in Hj. destruct Hj as [Hs He].
        split; [exact He | intros _; exact Hs].
    + destruct j as [|j]; [lia|]. simpl in Hj.
      destruct (IH _ _ _ Hnth Hbad _ _ Hj ltac:(lia)) as [He Hs].
      split; [exact He | intros Hlt; apply Hs; lia].
Qed.

End NonFiniteAmounts.

(** ** The worked example of the specification

    Amounts 100 and 300: a quarter from -90 to 0 and three quarters from 0
    to 270, in binary64 without any rounding, and in exact arithmetic. *)

Example quarter_and_three_quarters (host : Host float) :
  map (fun s => (startAngle s, endAngle s))
    (slicesData [sampleItem "A" 100%float; sampleItem "B" 300%float]
       240%float None)
  = [((-90)%float, 0%float); (0%float, 270%float)]
  /\ spanSum
       (slicesData [sampleItem "A" 100%float; sampleItem "B" 300%float]
          240%float None)
     = 360%float.
Proof. split; reflexivity. Qed.

Example exact_quarter_and_three_quarters (host : Host Qc) :
  spanSum
    (slicesData [sampleItem "A" (Q2Qc 100); sampleItem "B" (Q2Qc 300)]
       (Q2Qc 240) None)
  = Q2Qc 360.
Proof. now apply exact_full_circle. Qed.

(** ** The ring at the default size

    At size 240 the ring of an unselected slice goes round the circle of
    radius 110 from (120, 10) through (120, 230), and back along the
    circle of radius 110 * 0.55: every arc joins two distinct points. *)

Example ring_at_default_size (host : Host float) :
  pieSliceCommands 240%float (-90)%float 270%float false
  = [ MoveTo 120%float 10%float;
      ArcTo 110%float 110%float true true 120%float 230%float;
      ArcTo 110%float 110%float true true 120%float 10%float;
      MoveTo 120%float 59.499999999999993%float;
      ArcTo 60.500000000000007%float 60.500000000000007%float true false
        120%float 180.5%float;
      ArcTo 60.500000000000007%float 60.500000000000007%float true false
        120%float 59.499999999999993%float;
      ClosePath ].
Proof. reflexivity. Qed.

(** * Properties of the engine *)

Ltac pose_host host :=
  pose (host := {| Math_cos := fun v : float => v;
                   Math_sin := fun v : float => v;
                   toString := fun _ : float => "";
                   toFixed := fun (_ : float) (_ : nat) => "";
                   toLocaleString := fun (_ : float) (_ : string) => "" |}).

(** ** The slices and their angles *)


(** C2, at an input where the sentence fails.  Amounts NaN and 1: the
    total is NaN and not 1, the first slice ends at NaN, and the second
    slice runs from NaN to NaN where it would run from -90 to 270 had the
    first amount been 0. *)
Lemma nan_amount_reaches_later_slices : ~ nonfinite_amount_counts_as_zero.
Proof.
  intros Hclaim.
  pose_host host.
  destruct (Hclaim host
              [sampleItem "Sand" nan; sampleItem "Cement" 1%float]
              240%float None 0%nat (sampleItem "Sand" nan)
              eq_refl eq_refl) as (_ & _ & Hothers).
  destruct (Hothers 1%nat _ _ ltac:(discriminate) eq_refl eq_refl)
    as [Hstart _].
  vm_compute in Hstart.
  assert (Hnan : PrimFloat.is_nan (-90)%float = true)
    by (rewrite <- Hstart; reflexivity).
  vm_compute in Hnan. discriminate Hnan.
Qed.

(** C2.  When some amount is NaN or infinite, no zero is put in its
    place: the total is not finite either, the slice of that data point
    ends at NaN, and every later slice starts and ends at NaN. *)
Theorem nonfinite_amount_propagates :
  forall (host : Host float) (data : list PieChartData) (size : float)
    (selection : option nat) (i : nat) (bad : PieChartData),
    nth_error data i = Some bad ->
    F64.isFinite (amount bad) = false ->
    F64.isFinite (total data) = false
    /\ forall j slice,
        nth_error (slicesData data size selection) j = Some slice ->
        (i <= j)%nat ->
        endAngle slice = nan /\ ((i < j)%nat -> startAngle slice = nan).
Proof.
  intros host data size selection i bad Hnth Hbad.
  assert (Htotal : F64.isFinite (total data) = false)
    by (exact (sum_nonfinite data i bad _ Hnth Hbad)).
  split; [exact Htotal|].
  intros j slice Hj Hle.
  exact (mapSlices_nonfinite size (total data) selection data 0 _ i bad
           Htotal Hnth Hbad j slice Hj Hle).
Qed.

Lemma nonfinite_amount_propagates_witness :
  (nth_error
     [sampleItem "Sand" 1%float; sampleItem "Cement" infinity;
      sampleItem "Steel" 2%float] 1
   = Some (sampleItem "Cement" infinity)
   /\ F64.isFinite infinity = false)
  /\ (forall host : Host float,
         F64.isFinite
           (total
              [sampleItem "Sand" 1%float; sampleItem "Cement" infinity;
               sampleItem "Steel" 2%float]) = false
         /\ forall j slice,
             nth_error
               (slicesData
                  [sampleItem "Sand" 1%float; sampleItem "Cement" infinity;
                   sampleItem "Steel" 2%float] 240%float None) j
             = Some slice ->
             (1 <= j)%nat ->
             endAngle slice = nan /\ ((1 < j)%nat -> startAngle slice = nan)).
Proof.
  split; [split; reflexivity|]. intros host.
  apply (nonfinite_amount_propagates host
           [sampleItem "Sand" 1%float; sampleItem "Cement" infinity;
            sampleItem "Steel" 2%float]
           240%float None 1 (sampleItem "Cement" infinity));
    reflexivity.
Defined.

(** ** The path builder *)



(** ** The partition of the circle *)




(** C5. When the span is below 359.9 degrees the path is the wedge: from
    the outer start point along the outer arc, clockwise, to the outer end
    point, a line to the inner end point, the inner arc back to the inner
    start point, close; the four points are the polar points of the two
    angles on the two radii, and the large-arc flag of both arcs is set
    exactly when the span exceeds 180 degrees. *)
Theorem partial_circle_is_wedge :
  forall (host : Host float) (size startAngle endAngle : float)
    (color : string) (isSelected : bool),
    (endAngle - startAngle <? 359.9)%float = true ->
    exists largeArc : bool,
      (largeArc = true <-> (180 <? endAngle - startAngle)%float = true)
      /\ pieSliceCommands size startAngle endAngle isSelected
         = wedgePath (centerX size) (centerY size)
             (drawnRadius size isSelected) (innerRadius size)
             startAngle endAngle largeArc
      /\ createPieSlice size startAngle endAngle color isSelected
         = path_text
             (wedgePath (centerX size) (centerY size)
                (drawnRadius size isSelected) (innerRadius size)
                startAngle endAngle largeArc).
Proof.
  intros host size startAngle endAngle color isSelected Hpart.
  apply F64Facts.ltb_not_geb in Hpart.
  exists (180 <? endAngle - startAngle)%float.
  split; [tauto|]. unfold createPieSlice.
  rewrite pieSliceCommands_wedge by exact Hpart.
  split; reflexivity.
Qed.

Lemma partial_circle_is_wedge_witness :
  (0 - -90 <? 359.9)%float = true
  /\ (forall host : Host float,
        exists largeArc : bool,
          (largeArc = true <-> (180 <? 0 - -90)%float = true)
          /\ pieSliceCommands 240%float (-90)%float 0%float true
             = wedgePath 120%float 120%float 118%float
                 60.500000000000007%float (-90)%float 0%float largeArc
          /\ createPieSlice 240%float (-90)%float 0%float "#4CAF50" true
             = path_text
                 (wedgePath 120%float 120%float 118%float
                    60.500000000000007%float (-90)%float 0%float largeArc)).
Proof.
  split; [reflexivity|]. intros host.
  apply (partial_circle_is_wedge host 240%float (-90)%float 0%float
           "#4CAF50" true).
  reflexivity.
Defined.

(** ** The touch areas *)

(** C6, at an input where the sentence fails.  A single data point whose
    amount is NaN, in a chart of size 240: the span is NaN, and
    [Math.max(60, NaN)] is NaN, which is not at least 60. *)
Lemma overlay_of_nan_span_is_nan : ~ every_overlay_at_least_60.
Proof.
  intros Hclaim.
  pose_host host.
  destruct (Hclaim host [sampleItem "Sand" nan] 240%float None)
    as [_ Hall].
  destruct (Hall 0%nat _ eq_refl) as (region & Hnth & _ & Hfloor).
  vm_compute in Hnth. injection Hnth as <-.
  vm_compute in Hfloor. discriminate Hfloor.
Qed.

(** C6.  Every slice has exactly one overlay, at the same position of the
    list and with the slice's key; it is centred on the polar point at
    the middle angle and at radius (radius + innerRadius) / 2; its side is
    [Math.max(60, span / 360 * size)]; and the side is at least 60 whenever
    span / 360 * size is not NaN. *)
Theorem overlay_per_slice :
  forall (host : Host float) (data : list PieChartData) (size : float)
    (selection : option nat),
    let slices := slicesData data size selection in
    let regions := overlays (CustomPieChart data (Some size) selection) in
    List.length regions = List.length slices
    /\ forall i slice,
        nth_error slices i = Some slice ->
        exists region,
          nth_error regions i = Some region
          /\ overlayOf size slice region
          /\ (F64.isNaN
                ((endAngle slice - startAngle slice) / 360 * size)%float
              = false ->
              (60 <=? width region)%float = true).
Proof.
  intros host data size selection slices regions. split.
  - unfold regions. simpl. apply length_map.
  - intros i slice Hnth.
    destruct (overlay_of_slice data size selection i slice Hnth)
      as (region & Hregion & -> & Hshape).
    exists (renderOverlay size slice).
    split; [exact Hregion | split; [exact Hshape|]].
    intros Hnum. now apply F64Facts.max_floor.
Qed.

(** ** The selection *)

(** C7. A press on slice [i] clears the selection when [i] is the selected
    index and selects [i] otherwise, whatever was selected before; the
    three cases of the specification hold; and in every first pass at most
    one slice is marked selected. *)
Theorem press_toggles_selection :
  forall (callback : bool) (item : PieChartData (N := float)),
    (forall (current : option nat) (i : nat),
        (current = Some i ->
         nextSelectedIndex (handleSlicePress callback current item i) = None)
        /\ (current <> Some i ->
            nextSelectedIndex (handleSlicePress callback current item i)
            = Some i))
    /\ nextSelectedIndex (handleSlicePress callback None item 2) = Some 2%nat
    /\ nextSelectedIndex (handleSlicePress callback (Some 2%nat) item 2) = None
    /\ nextSelectedIndex (handleSlicePress callback (Some 2%nat) item 5)
       = Some 5%nat
    /\ (forall (host : Host float) data size current i j si sj,
           nth_error (slicesData data size current) i = Some si ->
           nth_error (slicesData data size current) j = Some sj ->
           isSelected si = true -> isSelected sj = true -> i = j).
Proof.
  intros callback item. repeat split.
  - intros ->. simpl. now rewrite Nat.eqb_refl.
  - intros Hne. simpl. destruct current as [k|]; simpl; trivial.
    destruct (Nat.eqb_spec k i) as [->|]; [now elim Hne | reflexivity].
  - intros host data size current i j si sj Hi Hj Hsi Hsj.
    apply mapSlices_nth in Hi. apply mapSlices_nth in Hj.
    destruct Hi as (_ & _ & Ei & _), Hj as (_ & _ & Ej & _).
    rewrite Ei in Hsi. rewrite Ej in Hsj. simpl in Hsi, Hsj.
    destruct current as [k|]; simpl in Hsi, Hsj; [|discriminate].
    apply Nat.eqb_eq in Hsi, Hsj. congruence.
Qed.

Lemma press_toggles_selection_witness :
  nextSelectedIndex
    (handleSlicePress true (Some 2%nat) (sampleItem "Cement" 100%float) 2)
  = None.
Proof.
  apply (proj1 (press_toggles_selection true (sampleItem "Cement" 100%float))
           (Some 2%nat) 2%nat).
  reflexivity.
Defined.



(** C10. A selected index past the end of the data selects no item: the
    lookup yields nothing and the component renders the same centre label
    as with no selection. *)
Theorem stale_selection_shows_total :
  forall (host : Host float) (data : list PieChartData)
    (sizeProp : option float) (i : nat),
    (List.length data <= i)%nat ->
    selectedItem data (Some i) = None
    /\ centerLabel (CustomPieChart data sizeProp (Some i))
       = centerLabel (CustomPieChart data sizeProp None)
    /\ centerLabel (CustomPieChart data sizeProp (Some i))
       = TotalLabel "Total" "Expenses".
Proof.
  intros host data sizeProp i Hout.
  assert (Hnone : selectedItem data (Some i) = None)
    by (now apply nth_error_None).
  repeat split; trivial; simpl; unfold renderCenterLabel;
    now rewrite Hnone.
Qed.

Lemma stale_selection_shows_total_witness :
  (List.length [sampleItem "Cement" 100%float] <= 3)%nat
  /\ (forall host : Host float,
         centerLabel
           (CustomPieChart [sampleItem "Cement" 100%float] None (Some 3%nat))
         = TotalLabel "Total" "Expenses").
Proof.
  split; [simpl; lia|]. intros host.
  apply (stale_selection_shows_total host
           [sampleItem "Cement" 100%float] None 3).
  simpl. lia.
Defined.

(** C9, at an input where the sentence fails.  Two data points of amount
    1: with nothing selected the second slice is drawn with opacity 1,
    with the first slice selected it is drawn with opacity 0.6. *)
Lemma unselected_slices_are_dimmed : ~ radius_is_the_only_emphasis.
Proof.
  intros Hclaim.
  pose_host host.
  destruct (Hclaim host
              [sampleItem "Sand" 1%float; sampleItem "Cement" 1%float]
              240%float None (Some 0%nat)) as [_ Hsame].
  destruct (Hsame 1%nat _ _ eq_refl eq_refl) as (_ & _ & _ & Hopacity).
  vm_compute in Hopacity.
  assert (Hne : (1 =? 0.6)%float = true) by (f_equal; now rewrite Hopacity).
  vm_compute in Hne. discriminate Hne.
Qed.

(** C9.  The angles of the slices are the same under any two selections.
    The selection shows in two ways: the selected slice is drawn with the
    outer radius radius + 8 and the others with radius; and while some
    index is selected every other slice is drawn with opacity 0.6, the
    opacity being 1 for the selected slice and for all slices when nothing
    is selected.  Fill, stroke and stroke width do not depend on it. *)
Theorem selection_emphasis :
  forall (host : Host float) (data : list PieChartData) (size : float)
    (selection other : option nat),
    map (fun s => (startAngle s, endAngle s))
      (slicesData data size selection)
    = map (fun s => (startAngle s, endAngle s)) (slicesData data size other)
    /\ forall i slice,
        nth_error (slicesData data size selection) i = Some slice ->
        exists drawn,
          nth_error (paths (CustomPieChart data (Some size) selection)) i
          = Some drawn
          /\ d drawn
             = path_text
                 (annulusPath size
                    (if same_index selection i
                     then radius size + 8 else radius size)%float
                    (startAngle slice) (endAngle slice))
          /\ opacity drawn
             = match selection with
               | None => 1%float
               | Some _ => if same_index selection i then 1%float
                           else 0.6%float
               end
          /\ fill drawn = color (item slice)
          /\ stroke drawn = "#fff"
          /\ strokeWidth drawn = 2%float.
Proof.
  intros host data size selection other. split.
  - apply mapSlices_angles_selection.
  - intros i slice Hnth.
    exists (renderPath selection slice). split.
    + simpl. now rewrite nth_error_map, Hnth.
    + apply mapSlices_nth in Hnth.
      destruct Hnth as (_ & _ & Hsel & _ & _ & Hpath & _).
      simpl in Hsel. unfold renderPath. simpl.
      rewrite Hpath, Hsel, createPieSlice_annulus.
      repeat split; reflexivity.
Qed.

(** * Further properties of the chart *)

Section ChartOrder.

Context {host : Host float}.

Variables (size total_ : float) (selection : option nat).

Lemma mapSlices_items items first current :
  map item (mapSlices size total_ selection items first current) = items.
Proof.
  revert first current.
  induction items as [|it rest IH]; intros first current; simpl.
  - reflexivity.
  - now rewrite IH.
Qed.

Lemma mapSlices_indices items first current :
  map index (mapSlices size total_ selection items first current)
  = seq first (List.length items).
Proof.
  revert first current.
  induction items as [|it rest IH]; intros first current; simpl.
  - reflexivity.
  - now rewrite IH.
Qed.

End ChartOrder.

(** X1.  The slices come in the order of the data, one per data point and
    none dropped or sorted, and the slice at position [i] carries the
    index [i]: the keys of the path elements and of the overlays are
    0, 1, ..., n-1. *)
Theorem slices_follow_the_data :
  forall (host : Host float) (data : list PieChartData) (size : float)
    (selection : option nat),
    map item (slicesData data size selection) = data
    /\ map index (slicesData data size selection)
       = seq 0 (List.length data)
    /\ map path_key (paths (CustomPieChart data (Some size) selection))
       = seq 0 (List.length data)
    /\ map touch_key (overlays (CustomPieChart data (Some size) selection))
       = seq 0 (List.length data).
Proof.
  intros host data size selection.
  assert (Hitems := mapSlices_items size (total data) selection data 0
                      (num (-90))).
  assert (Hidx := mapSlices_indices size (total data) selection data 0
                    (num (-90))).
  repeat split; trivial; simpl; rewrite map_map; exact Hidx.
Qed.

(** X2.  The press handler of a slice is wired to that slice.  A press on
    the slice at position [i] that is not the selected one selects [i],
    hands its item and [i] to [onSlicePress], and on the next render the
    centre shows that item's detail and exactly the slice at [i] is marked
    selected; a press on the selected slice gives the render with nothing
    selected. *)
Theorem press_then_render :
  forall (host : Host float) (callback : bool) (data : list PieChartData)
    (size : float) (current : option nat) (i : nat) (slice : Slice),
    nth_error (slicesData data size current) i = Some slice ->
    let pressed :=
      handleSlicePress callback current (item slice) (index slice) in
    notified pressed = (if callback then Some (item slice, i) else None)
    /\ (current = Some i ->
        CustomPieChart data (Some size) (nextSelectedIndex pressed)
        = CustomPieChart data (Some size) None)
    /\ (current <> Some i ->
        nextSelectedIndex pressed = Some i
        /\ centerLabel
             (CustomPieChart data (Some size) (nextSelectedIndex pressed))
           = SelectedLabel
               (name (item slice))
               ("₹" ++ toLocaleString (amount (item slice)) "en-IN")
               (toFixed ((amount (item slice) / total data) * 100)%float 1
                  ++ "%")
        /\ forall j redrawn,
            nth_error (slicesData data size (nextSelectedIndex pressed)) j
            = Some redrawn ->
            isSelected redrawn = Nat.eqb i j).
Proof.
  intros host callback data size current i slice Hnth pressed.
  apply mapSlices_nth in Hnth.
  destruct Hnth as (Hitem & Hindex & _). simpl in Hindex.
  unfold pressed. rewrite Hindex. simpl.
  assert (Hnext :
    current <> Some i ->
    (if same_index current i then None else Some i) = Some i).
  { intros Hother. destruct current as [k|]; simpl; trivial.
    destruct (Nat.eqb_spec k i) as [->|]; [now elim Hother | reflexivity]. }
  split; [reflexivity|]. split.
  - intros ->. simpl. now rewrite Nat.eqb_refl.
  - intros Hother. rewrite (Hnext Hother). split; [reflexivity|]. split.
    + unfold renderCenterLabel, selectedItem. rewrite Hitem. reflexivity.
    + intros j redrawn Hj. apply mapSlices_nth in Hj.
      destruct Hj as (_ & _ & Hsel & _). exact Hsel.
Qed.

Lemma press_then_render_witness :
  (forall host : Host float,
      nth_error
        (slicesData [sampleItem "Cement" 100%float;
                     sampleItem "Steel" 300%float] 240%float None) 1
      <> None)
  /\ (forall host : Host float,
         centerLabel
           (CustomPieChart
              [sampleItem "Cement" 100%float; sampleItem "Steel" 300%float]
              (Some 240%float) (Some 1%nat))
         = SelectedLabel "Steel" ("₹" ++ toLocaleString 300%float "en-IN")
             (toFixed 75%float 1 ++ "%")).
Proof.
  split; [intros host; discriminate|]. intros host.
  destruct (press_then_render host false
              [sampleItem "Cement" 100%float; sampleItem "Steel" 300%float]
              240%float None 1 _ eq_refl) as (_ & _ & Hselect).
  destruct (Hselect ltac:(discriminate)) as (_ & Hlabel & _).
  exact Hlabel.
Defined.

(** ** More of binary64: zeros, and the order away from NaN *)

Module F64Order.

Local Open Scope float_scope.

Lemma zero_cases z : F64.isZero z = true -> z = 0 \/ z = -0.
Proof.
  intros Hz. destruct (F64Facts.isZero_spec z Hz) as [[|] Es].
  - right. apply Prim2SF_inj. rewrite Es. reflexivity.
  - left. apply Prim2SF_inj. rewrite Es. reflexivity.
Qed.

Lemma SFcompare_refl a : a <> S754_nan -> SFcompare a a = Some Eq.
Proof.
  destruct a as [s|s| |s m e]; simpl; intros Hnan;
    try reflexivity; try (destruct s; reflexivity); try now elim Hnan.
  destruct s; rewrite Z.compare_refl, Pos.compare_cont_refl; reflexivity.
Qed.

(** A zero added to a finite number leaves a number equal to it, and
    their difference is a zero. *)
Lemma add_zero_span c z :
  F64.isFinite c = true -> F64.isZero z = true ->
  (c + z =? c) = true /\ F64.isZero (c + z - c) = true.
Proof.
  intros Hc Hz. destruct (F64Facts.isZero_spec z Hz) as [t Et].
  rewrite F64Facts.isFinite_spec in Hc. unfold F64.isZero.
  rewrite !FloatAxioms.eqb_spec, FloatAxioms.sub_spec, FloatAxioms.add_spec,
    Et.
  change (Prim2SF 0) with (S754_zero false).
  destruct (Prim2SF c) as [s|s| |s m e]; try discriminate Hc.
  - destruct s, t; split; reflexivity.
  - split.
    + unfold SFeqb. simpl SF64add. rewrite SFcompare_refl; easy.
    + simpl SF64add. unfold SF64sub, SFsub. rewrite Z.sub_diag. reflexivity.
Qed.

Lemma mul_zero_finite z v :
  F64.isZero z = true -> F64.isFinite v = true -> F64.isZero (z * v) = true.
Proof.
  intros Hz Hv. destruct (F64Facts.isZero_spec z Hz) as [t Et].
  rewrite F64Facts.isFinite_spec in Hv. unfold F64.isZero.
  rewrite FloatAxioms.eqb_spec, FloatAxioms.mul_spec, Et.
  destruct (Prim2SF v) as [s|s| |s m e]; try discriminate Hv; reflexivity.
Qed.

Lemma max_60_zero z : F64.isZero z = true -> F64.max 60 z = 60.
Proof. intros Hz. destruct (zero_cases z Hz) as [-> | ->]; reflexivity. Qed.

(** Away from NaN the order is total. *)
Lemma not_leb_ltb x y :
  F64.isNaN x = false -> F64.isNaN y = false ->
  (x <=? y) = false -> (y <? x) = true.
Proof.
  unfold F64.isNaN, is_nan.
  rewrite !FloatAxioms.eqb_spec, FloatAxioms.leb_spec, FloatAxioms.ltb_spec.
  unfold SFeqb, SFleb, SFltb.
  rewrite (F64Facts.SFcompare_antisym (Prim2SF x) (Prim2SF y)).
  destruct (Prim2SF x) as [s|s| |s m e], (Prim2SF y) as [t|t| |t n f];
    simpl; try discriminate;
    try (destruct s; discriminate); try (destruct t; discriminate);
    try (destruct s, t; discriminate);
    try (destruct s; try discriminate; reflexivity);
    try (destruct t; try discriminate; reflexivity);
    try (destruct s, t; try discriminate; reflexivity).
  intros _ _.
  destruct s, t; try discriminate; try reflexivity;
    destruct (e ?= f)%Z; try discriminate; try reflexivity;
    destruct (Pos.compare_cont Eq m n); try discriminate; reflexivity.
Qed.

Lemma not_ltb_leb x y :
  F64.isNaN x = false -> F64.isNaN y = false ->
  (x <? y) = false -> (y <=? x) = true.
Proof.
  unfold F64.isNaN, is_nan.
  rewrite !FloatAxioms.eqb_spec, FloatAxioms.leb_spec, FloatAxioms.ltb_spec.
  unfold SFeqb, SFleb, SFltb.
  rewrite (F64Facts.SFcompare_antisym (Prim2SF x) (Prim2SF y)).
  destruct (Prim2SF x) as [s|s| |s m e], (Prim2SF y) as [t|t| |t n f];
    simpl; try discriminate;
    try (destruct s; discriminate); try (destruct t; discriminate);
    try (destruct s, t; discriminate);
    try (destruct s; try discriminate; reflexivity);
    try (destruct t; try discriminate; reflexivity);
    try (destruct s, t; try discriminate; reflexivity).
  intros _ _.
  destruct s, t; try discriminate; try reflexivity;
    destruct (e ?= f)%Z; try discriminate; try reflexivity;
    destruct (Pos.compare_cont Eq m n); try discriminate; reflexivity.
Qed.

(** What lies between two finite numbers is finite and is not NaN. *)
Lemma between_finite lo x hi :
  F64.isFinite lo = true -> F64.isFinite hi = true ->
  (lo <=? x) = true -> (x <=? hi) = true ->
  F64.isFinite x = true.
Proof.
  rewrite !F64Facts.isFinite_spec, !FloatAxioms.leb_spec. unfold SFleb.
  destruct (Prim2SF x) as [s|s| |s m e]; trivial.
  destruct (Prim2SF lo) as [t|t| |t n f], (Prim2SF hi) as [u|u| |u p g];
    simpl; try discriminate; destruct s; try discriminate;
    try (destruct t; discriminate); try (destruct u; discriminate).
Qed.

Lemma abs_not_negative x : (abs x <? 0) = false.
Proof.
  rewrite FloatAxioms.ltb_spec, FloatAxioms.abs_spec.
  change (Prim2SF 0) with (S754_zero false).
  destruct (Prim2SF x) as [s|s| |s m e]; reflexivity.
Qed.

End F64Order.

(** X3.  A data point of amount zero in a chart whose total is finite and
    not zero still has its slice and its overlay: the slice ends at the
    angle it starts at, and the overlay has the minimum size, 60 by 60.
    (The start angle and the size of the chart are finite.) *)
Theorem zero_amount_slice :
  forall (host : Host float) (data : list PieChartData) (size : float)
    (selection : option nat) (i : nat) (slice : Slice),
    nth_error (slicesData data size selection) i = Some slice ->
    zeroAmount (item slice) ->
    finiteNonzero (total data) ->
    F64.isFinite (startAngle slice) = true ->
    F64.isFinite size = true ->
    (endAngle slice =? startAngle slice)%float = true
    /\ exists region,
         nth_error (overlays (CustomPieChart data (Some size) selection)) i
         = Some region
         /\ width region = 60%float
         /\ height region = 60%float.
Proof.
  intros host data size selection i slice Hnth Hzero [Tf Tn] Hstart Hsize.
  destruct (overlay_of_slice data size selection i slice Hnth)
    as (region & Hregion & _ & (_ & Hwidth & Hheight & _)).
  apply mapSlices_nth in Hnth.
  destruct Hnth as (_ & _ & _ & _ & Hend & _).
  assert (Hangle : F64.isZero
                     (amount (item slice) / total data * 360)%float = true).
  { apply F64Facts.mul_zero_l; try reflexivity.
    now apply F64Facts.div_zero_l. }
  destruct (F64Order.add_zero_span _ _ Hstart Hangle) as [Hsame Hspan].
  change (endAngle slice
          = (startAngle slice
             + amount (item slice) / total data * 360)%float) in Hend.
  rewrite <- Hend in Hsame, Hspan. split; [exact Hsame|].
  exists region. split; [exact Hregion|].
  assert (Hside : width region = 60%float).
  { rewrite Hwidth. apply F64Order.max_60_zero.
    apply F64Order.mul_zero_finite; trivial.
    apply F64Facts.div_zero_l; trivial; reflexivity. }
  split; [exact Hside | now rewrite Hheight].
Qed.

Lemma zero_amount_slice_witness :
  (zeroAmount (sampleItem "Sand" 0%float)
   /\ finiteNonzero
        (total [sampleItem "Cement" 5%float; sampleItem "Sand" 0%float])
   /\ F64.isFinite 270%float = true
   /\ F64.isFinite 240%float = true)
  /\ (forall host : Host float,
         exists region,
           nth_error
             (overlays
                (CustomPieChart
                   [sampleItem "Cement" 5%float; sampleItem "Sand" 0%float]
                   (Some 240%float) None)) 1
           = Some region
           /\ width region = 60%float
           /\ height region = 60%float).
Proof.
  split; [repeat split|]. intros host.
  destruct (zero_amount_slice host
              [sampleItem "Cement" 5%float; sampleItem "Sand" 0%float]
              240%float None 1 _ eq_refl) as [_ Hregion];
    try reflexivity; [split; reflexivity | exact Hregion].
Defined.

Section ChartFrames.

Variables (total_ : float) (items : list (PieChartData (N := float))).

Lemma mapSlices_angles_any (host other : Host float) size size'
  selection selection' first first' current :
  map (fun s => (startAngle s, endAngle s))
    (mapSlices (H0 := host) size total_ selection items first current)
  = map (fun s => (startAngle s, endAngle s))
      (mapSlices (H0 := other) size' total_ selection' items first' current).
Proof.
  revert first first' current.
  induction items as [|it rest IH]; intros first first' current; simpl.
  - reflexivity.
  - f_equal. apply IH.
Qed.

Lemma mapSlices_overlays {host : Host float} size selection selection'
  first current :
  map (renderOverlay size)
    (mapSlices size total_ selection items first current)
  = map (renderOverlay size)
      (mapSlices size total_ selection' items first current).
Proof.
  revert first current.
  induction items as [|it rest IH]; intros first current; simpl.
  - reflexivity.
  - f_equal. apply IH.
Qed.

End ChartFrames.

(** X4.  The angles of the slices are a function of the amounts alone:
    they are the same whatever the size of the chart, the selection and
    the host's [Math.cos], [Math.sin] and formatters. *)
Theorem angles_depend_on_amounts_only :
  forall (host other : Host float) (data : list PieChartData)
    (size size' : float) (selection selection' : option nat),
    map (fun s => (startAngle s, endAngle s))
      (slicesData (H0 := host) data size selection)
    = map (fun s => (startAngle s, endAngle s))
        (slicesData (H0 := other) data size' selection').
Proof.
  intros host other data size size' selection selection'.
  apply mapSlices_angles_any.
Qed.

(** X5.  A change of selection moves no touch overlay, and leaves the
    path and the fill of every slice whose selected mark it does not
    change as they were. *)
Theorem selection_leaves_the_rest :
  forall (host : Host float) (data : list PieChartData) (size : float)
    (selection selection' : option nat),
    overlays (CustomPieChart data (Some size) selection)
    = overlays (CustomPieChart data (Some size) selection')
    /\ forall i drawn redrawn,
        nth_error (paths (CustomPieChart data (Some size) selection)) i
        = Some drawn ->
        nth_error (paths (CustomPieChart data (Some size) selection')) i
        = Some redrawn ->
        same_index selection i = same_index selection' i ->
        d drawn = d redrawn /\ fill drawn = fill redrawn.
Proof.
  intros host data size selection selection'. split.
  - apply mapSlices_overlays.
  - intros i drawn redrawn Hd Hr Hsame. simpl in Hd, Hr.
    rewrite nth_error_map in Hd, Hr.
    destruct (nth_error (slicesData data size selection) i)
      as [slice|] eqn:Hs; [|discriminate Hd].
    destruct (nth_error (slicesData data size selection') i)
      as [slice'|] eqn:Hs'; [|discriminate Hr].
    injection Hd as <-. injection Hr as <-.
    assert (Hangles := mapSlices_angles_selection size (total data)
                         selection selection' data 0 (num (-90))).
    apply (f_equal (fun l => nth_error l i)) in Hangles.
    rewrite !nth_error_map in Hangles.
    fold (slicesData data size selection) in Hangles.
    fold (slicesData data size selection') in Hangles.
    rewrite Hs, Hs' in Hangles. simpl in Hangles.
    injection Hangles as Hstart Hend.
    apply mapSlices_nth in Hs, Hs'.
    destruct Hs as (Hi & _ & Hsel & _ & _ & Hpath & _).
    destruct Hs' as (Hi' & _ & Hsel' & _ & _ & Hpath' & _).
    simpl in Hsel, Hsel'. simpl.
    assert (Hitem : item slice = item slice') by congruence.
    rewrite Hpath, Hpath', Hsel, Hsel', Hsame, Hstart, Hend, Hitem.
    split; reflexivity.
Qed.

(** * Properties of the material list *)

Module MaterialFacts.

Import Materials.

Lemma includes_In names material :
  includes names material = true <-> In material names.
Proof.
  unfold includes. rewrite existsb_exists. split.
  - intros (m & Hin & Heq). apply String.eqb_eq in Heq. now subst.
  - intros Hin. exists material. split; [exact Hin | apply String.eqb_refl].
Qed.

Lemma includes_not_In names material :
  includes names material = false <-> ~ In material names.
Proof.
  rewrite <- includes_In. destruct (includes names material); split;
    congruence.
Qed.

Lemma without_In material names m :
  In m (without material names) <-> In m names /\ m <> material.
Proof.
  unfold without. rewrite filter_In, negb_true_iff, String.eqb_neq.
  reflexivity.
Qed.

Lemma without_absent material names :
  ~ In material names -> without material names = names.
Proof.
  intros Habsent. unfold without.
  induction names as [|m rest IH]; simpl; trivial.
  destruct (String.eqb_spec m material) as [->|Hne]; simpl.
  - elim Habsent. now left.
  - f_equal. apply IH. intros Hin. apply Habsent. now right.
Qed.

Lemma without_added (material : string) (names : list string) :
  ~ In material names -> without material (names ++ [material])%list = names.
Proof.
  intros Habsent. unfold without. rewrite filter_app. simpl.
  rewrite String.eqb_refl. simpl. rewrite app_nil_r.
  now apply without_absent.
Qed.

Lemma without_NoDup material names :
  NoDup names -> NoDup (without material names).
Proof. apply NoDup_filter. Qed.

Lemma added_NoDup (material : string) (names : list string) :
  NoDup names -> ~ In material names -> NoDup (names ++ [material])%list.
Proof.
  intros Hnames Habsent. apply NoDup_app; trivial.
  - repeat constructor. intros [].
  - intros m Hin [<-|[]]. contradiction.
Qed.

Lemma reducer_keeps_distinct (state : MaterialState)
  (action : MaterialAction) :
  NoDup (materials state) ->
  match action with SET_MATERIALS payload => NoDup payload | _ => True end ->
  NoDup (materials (materialReducer state action)).
Proof.
  intros Hstate Haction. destruct action as [p|p|p|p|p]; simpl; trivial.
  - destruct (includes (materials state) p) eqn:Hin; trivial.
    simpl. apply added_NoDup; trivial. now apply includes_not_In.
  - now apply without_NoDup.
Qed.

Section Operations.

Variable trim : string -> string.


Lemma perform_distinct provider operation :
  NoDup (materials (state provider)) ->
  NoDup (materials (state (perform trim provider operation))).
Proof.
  intros Hdistinct.
  destruct operation as [material failure | material failure | failure];
    simpl.
  - unfold addMaterial.
    destruct (String.eqb (trim material) ""); trivial.
    destruct (includes (materials (state provider)) (trim material)) eqn:Hin;
      trivial.
    destruct failure as [message|]; simpl; trivial.
    exact (reducer_keeps_distinct (state provider)
             (ADD_MATERIAL (trim material)) Hdistinct I).
  - unfold removeMaterial. destruct failure as [message|]; simpl; trivial.
    now apply without_NoDup.
  - unfold resetToDefaults. destruct failure as [message|]; simpl; trivial.
    repeat constructor; simpl; intuition discriminate.
Qed.

End Operations.

End MaterialFacts.

(** X6.  No sequence of actions puts a material twice in the list: if
    the list has no duplicate and every list set wholesale has none, the
    list after the actions has none. *)
Theorem reducer_never_duplicates :
  forall (actions : list Materials.MaterialAction)
    (state : Materials.MaterialState),
    NoDup (Materials.materials state) ->
    Forall (fun action =>
              match action with
              | Materials.SET_MATERIALS payload => NoDup payload
              | _ => True
              end) actions ->
    NoDup (Materials.materials
             (fold_left Materials.materialReducer actions state)).
Proof.
  induction actions as [|action rest IH]; intros state Hstate Hall; simpl.
  - exact Hstate.
  - inversion Hall as [|? ? Haction Hrest]; subst.
    apply IH; trivial.
    now apply MaterialFacts.reducer_keeps_distinct.
Qed.

Lemma reducer_never_duplicates_witness :
  NoDup (Materials.materials Materials.initialState)
  /\ NoDup
       (Materials.materials
          (fold_left Materials.materialReducer
             [Materials.ADD_MATERIAL "Sand"; Materials.ADD_MATERIAL "Sand";
              Materials.REMOVE_MATERIAL "Glass"]
             Materials.initialState)).
Proof.
  split; [constructor|].
  apply (reducer_never_duplicates
           [Materials.ADD_MATERIAL "Sand"; Materials.ADD_MATERIAL "Sand";
            Materials.REMOVE_MATERIAL "Glass"] Materials.initialState).
  - constructor.
  - repeat constructor.
Defined.

(** X7.  REMOVE_MATERIAL takes every occurrence of the material out of
    the list and nothing else: the list no longer includes it, any other
    material is in the list after exactly when it was before, and when
    the material was not in the list the state is unchanged. *)
Theorem remove_takes_only_the_material :
  forall (state : Materials.MaterialState) (material : string),
    let after :=
      Materials.materialReducer state (Materials.REMOVE_MATERIAL material) in
    Materials.includes (Materials.materials after) material = false
    /\ (forall other,
           other <> material ->
           (In other (Materials.materials after)
            <-> In other (Materials.materials state)))
    /\ (Materials.includes (Materials.materials state) material = false ->
        after = state).
Proof.
  intros state material after. unfold after. simpl. repeat split.
  - apply MaterialFacts.includes_not_In.
    rewrite MaterialFacts.without_In. tauto.
  - rewrite MaterialFacts.without_In. tauto.
  - intros Hin. rewrite MaterialFacts.without_In. tauto.
  - intros Habsent. apply MaterialFacts.includes_not_In in Habsent.
    rewrite (MaterialFacts.without_absent _ _ Habsent).
    now destruct state.
Qed.

(** X8.  Adding a material that is not in the list puts it last, adding
    it again changes nothing, and removing it again gives back the list
    as it was. *)
Theorem add_then_remove :
  forall (state : Materials.MaterialState) (material : string),
    Materials.includes (Materials.materials state) material = false ->
    let added :=
      Materials.materialReducer state (Materials.ADD_MATERIAL material) in
    Materials.materials added
    = (Materials.materials state ++ [material])%list
    /\ Materials.materialReducer added (Materials.ADD_MATERIAL material)
       = added
    /\ Materials.materialReducer added (Materials.REMOVE_MATERIAL material)
       = state.
Proof.
  intros state material Habsent added. unfold added. simpl.
  rewrite Habsent. simpl. repeat split.
  - assert (Hnow : Materials.includes
                     (Materials.materials state ++ [material])%list material
                   = true).
    { apply MaterialFacts.includes_In, in_or_app. right. now left. }
    now rewrite Hnow.
  - apply MaterialFacts.includes_not_In in Habsent.
    rewrite (MaterialFacts.without_added _ _ Habsent).
    now destruct state.
Qed.

Lemma add_then_remove_witness :
  Materials.includes
    (Materials.materials
       {| Materials.materials := ["Cement"; "Sand"];
          Materials.loading := false; Materials.error := None |})
    "Bamboo" = false
  /\ Materials.materialReducer
       (Materials.materialReducer
          {| Materials.materials := ["Cement"; "Sand"];
             Materials.loading := false; Materials.error := None |}
          (Materials.ADD_MATERIAL "Bamboo"))
       (Materials.REMOVE_MATERIAL "Bamboo")
     = {| Materials.materials := ["Cement"; "Sand"];
          Materials.loading := false; Materials.error := None |}.
Proof.
  split; [reflexivity|].
  apply (add_then_remove
           {| Materials.materials := ["Cement"; "Sand"];
              Materials.loading := false; Materials.error := None |}
           "Bamboo").
  reflexivity.
Defined.


(** X10.  If the stored list has no duplicate when the provider mounts,
    the list on the screen never has one, whatever is added, removed or
    reset afterwards. *)
Theorem screen_never_duplicates :
  forall (trim : string -> string) (found : option (list string))
    (readFails : bool) (failure : option string)
    (operations : list Materials.Operation),
    match found with Some names => NoDup names | None => True end ->
    let mounted :=
      Materials.loadData readFails failure
        {| Materials.state := Materials.initialState;
           Materials.stored := found |} in
    NoDup
      (Materials.materials
         (Materials.state
            (fold_left (Materials.perform trim) operations mounted))).
Proof.
  intros trim found readFails failure operations Hfound mounted.
  assert (Hdefaults : NoDup Materials.MATERIAL_TYPES)
    by (repeat constructor; simpl; intuition discriminate).
  assert (Hmounted : NoDup (Materials.materials (Materials.state mounted))).
  { unfold mounted, Materials.loadData, Materials.loadMaterials.
    destruct readFails; simpl.
    - destruct failure as [message|]; simpl; trivial. constructor.
    - destruct found as [[|m rest]|]; simpl; trivial;
        destruct failure as [message|]; simpl; trivial; constructor. }
  clearbody mounted. revert mounted Hmounted.
  induction operations as [|operation rest IH]; intros mounted Hmounted;
    simpl; trivial.
  apply IH. now apply MaterialFacts.perform_distinct.
Qed.

Lemma screen_never_duplicates_witness :
  NoDup ["Cement"; "Sand"]
  /\ NoDup
       (Materials.materials
          (Materials.state
             (fold_left (Materials.perform (fun s => s))
                [Materials.Add "Sand" None; Materials.Add "Glass" None;
                 Materials.Remove "Cement" (Some "disk full")]
                (Materials.loadData false None
                   {| Materials.state := Materials.initialState;
                      Materials.stored := Some ["Cement"; "Sand"] |})))).
Proof.
  assert (Hfound : NoDup ["Cement"; "Sand"])
    by (repeat constructor; simpl; intuition discriminate).
  split; [exact Hfound|].
  apply (screen_never_duplicates (fun s => s) (Some ["Cement"; "Sand"])
           false None
           [Materials.Add "Sand" None; Materials.Add "Glass" None;
            Materials.Remove "Cement" (Some "disk full")]).
  exact Hfound.
Defined.

(** * Properties of the contact search and of the phone format *)

Module ContactFacts.

Import Contacts.

Lemma prefix_spec part text :
  String.prefix part text = true <-> exists after, text = part ++ after.
Proof.
  revert part. induction text as [|c text IH]; intros part; simpl.
  - destruct part as [|c part].
    + split; [intros _; now exists "" | reflexivity].
    + split; [discriminate|]. intros [after Hafter]. discriminate Hafter.
  - destruct part as [|c' part]; simpl.
    + split; [intros _; now exists (String c text) | reflexivity].
    + destruct (Ascii.ascii_dec c' c) as [->|Hne].
      * rewrite IH. split; intros [after Hafter]; exists after.
        -- now rewrite Hafter.
        -- now injection Hafter.
      * split; [discriminate|].
        intros [after Hafter]. injection Hafter as Hc _.
        now elim Hne.
Qed.

Lemma includes_spec text part :
  includes text part = true
  <-> exists before after, text = before ++ part ++ after.
Proof.
  induction text as [|c text IH]; cbn [includes].
  - destruct (String.prefix part "") eqn:Hp.
    + split; trivial. intros _. apply prefix_spec in Hp.
      destruct Hp as [after Hafter]. now exists "", after.
    + split; [discriminate|]. intros (before & after & Htext).
      destruct before as [|b before]; [|discriminate Htext].
      assert (Hyes : String.prefix part "" = true)
        by (apply prefix_spec; now exists after).
      congruence.
  - destruct (String.prefix part (String c text)) eqn:Hp.
    + split; trivial. intros _. apply prefix_spec in Hp.
      destruct Hp as [after Hafter]. now exists "", after.
    + rewrite IH. split.
      * intros (before & after & ->). now exists (String c before), after.
      * intros (before & after & Htext).
        destruct before as [|b before].
        -- assert (Hyes : String.prefix part (String c text) = true)
             by (apply prefix_spec; now exists after).
           congruence.
        -- injection Htext as _ ->. now exists before, after.
Qed.

Lemma format_clean phoneNumber :
  allCharacters phoneCharacter (formatPhoneForWhatsApp phoneNumber) = true.
Proof.
  induction phoneNumber as [|c rest IH]; simpl; trivial.
  destruct (phoneCharacter c) eqn:Hc; simpl; trivial.
  now rewrite Hc.
Qed.

Lemma format_of_clean phoneNumber :
  allCharacters phoneCharacter phoneNumber = true ->
  formatPhoneForWhatsApp phoneNumber = phoneNumber.
Proof.
  induction phoneNumber as [|c rest IH]; simpl; trivial.
  intros Hall. apply andb_prop in Hall. destruct Hall as [Hc Hrest].
  rewrite Hc. f_equal. now apply IH.
Qed.

Lemma format_length phoneNumber :
  (String.length (formatPhoneForWhatsApp phoneNumber)
   <= String.length phoneNumber)%nat.
Proof.
  induction phoneNumber as [|c rest IH]; simpl; trivial.
  destruct (phoneCharacter c); simpl; lia.
Qed.

End ContactFacts.

(** X11.  A search never invents a contact.  A query that is blank once
    lower-cased and trimmed returns all contacts; any other query returns
    the contacts whose lower-cased name has the lower-cased, trimmed query
    somewhere inside it.  The search works contact by contact, keeping
    their order, and searching the result again with the same query
    returns it unchanged. *)
Theorem search_is_a_filter :
  forall (toLowerCase trim : string -> string)
    (contacts : list Contacts.ContactInfo) (query : string),
    let lowerQuery := trim (toLowerCase query) in
    let found := Contacts.searchContacts toLowerCase trim contacts query in
    (lowerQuery = "" -> found = contacts)
    /\ (lowerQuery <> "" ->
        forall contact,
          In contact found
          <-> In contact contacts
              /\ exists before after,
                   toLowerCase (Contacts.name contact)
                   = before ++ lowerQuery ++ after)
    /\ (forall contact, In contact found -> In contact contacts)
    /\ Contacts.searchContacts toLowerCase trim found query = found
    /\ (forall more,
           Contacts.searchContacts toLowerCase trim (contacts ++ more)%list
             query
           = (found
              ++ Contacts.searchContacts toLowerCase trim more query)%list).
Proof.
  intros toLowerCase trim contacts query lowerQuery found.
  unfold found, Contacts.searchContacts. fold lowerQuery.
  destruct (String.eqb_spec lowerQuery "") as [Hblank|Hquery].
  - split; [trivial|]. split; [intros Hne; contradiction|].
    split; [trivial|]. split; trivial.
  - split; [intros Hblank; contradiction|].
    split; [intros _ contact|split; [|split]].
    + rewrite filter_In, ContactFacts.includes_spec. reflexivity.
    + intros contact Hin. apply filter_In in Hin. tauto.
    + induction contacts as [|c rest IH]; simpl; trivial.
      destruct (Contacts.includes (toLowerCase (Contacts.name c)) lowerQuery)
        eqn:Hc; simpl; trivial.
      rewrite Hc. f_equal. exact IH.
    + intros more. apply filter_app.
Qed.

(** X12.  The phone number handed to WhatsApp holds digits and plus
    signs only and is no longer than the number it comes from; a number
    of digits and plus signs is handed over as it is, so formatting twice
    is formatting once. *)
Theorem whatsapp_phone_is_clean :
  forall phoneNumber : string,
    Contacts.allCharacters Contacts.phoneCharacter
      (Contacts.formatPhoneForWhatsApp phoneNumber) = true
    /\ (String.length (Contacts.formatPhoneForWhatsApp phoneNumber)
        <= String.length phoneNumber)%nat
    /\ (Contacts.allCharacters Contacts.phoneCharacter phoneNumber = true ->
        Contacts.formatPhoneForWhatsApp phoneNumber = phoneNumber)
    /\ Contacts.formatPhoneForWhatsApp
         (Contacts.formatPhoneForWhatsApp phoneNumber)
       = Contacts.formatPhoneForWhatsApp phoneNumber.
Proof.
  intros phoneNumber. repeat split.
  - apply ContactFacts.format_clean.
  - apply ContactFacts.format_length.
  - apply ContactFacts.format_of_clean.
  - apply ContactFacts.format_of_clean, ContactFacts.format_clean.
Qed.

(** * Properties of the validation of an amount *)

(** X13.  [validateAmount] accepts a number exactly when it is greater
    than 0 and at most 999999999.  NaN is refused as not a number.  So
    every accepted amount is finite and not zero, and the infinities are
    refused. *)
Theorem accepted_amounts :
  forall (parseFloat : string -> float) (localeString : float -> string)
    (amount : Validation.AmountInput),
    let value := Validation.numberOf parseFloat amount in
    (Validation.validateAmount parseFloat localeString amount = None
     <-> (0 <? value)%float = true /\ (value <=? 999999999)%float = true)
    /\ (F64.isNaN value = true ->
        Validation.validateAmount parseFloat localeString amount
        = Some "Amount must be a valid number")
    /\ (Validation.validateAmount parseFloat localeString amount = None ->
        finiteNonzero value).
Proof.
  intros parseFloat localeString amount value.
  assert (Hiff :
    Validation.validateAmount parseFloat localeString amount = None
    <-> (0 <? value)%float = true /\ (value <=? 999999999)%float = true).
  { unfold Validation.validateAmount. fold value.
    unfold Validation.MIN_AMOUNT, Validation.MAX_AMOUNT.
    destruct (F64.isNaN value) eqn:Hnan.
    - split; [discriminate|]. intros [Hpos _].
      apply F64Facts.isNaN_true in Hnan. rewrite Hnan in Hpos.
      discriminate Hpos.
    - destruct (value <=? 0)%float eqn:Hle.
      + split; [discriminate|]. intros [Hpos _].
        apply F64Facts.ltb_not_geb in Hpos. congruence.
      + destruct (999999999 <? value)%float eqn:Hgt.
        * split; [discriminate|]. intros [_ Hmax].
          apply F64Facts.ltb_not_geb in Hgt. congruence.
        * split; trivial. intros _. split.
          -- apply F64Order.not_leb_ltb; trivial.
          -- apply F64Order.not_ltb_leb; trivial. }
  split; [exact Hiff|]. split.
  - intros Hnan. unfold Validation.validateAmount. fold value.
    now rewrite Hnan.
  - intros Hok. apply Hiff in Hok. destruct Hok as [Hpos Hmax]. split.
    + apply (F64Order.between_finite 0%float value 999999999%float);
        trivial. now apply F64Facts.ltb_leb.
    + unfold F64.isZero.
      destruct (value =? 0)%float eqn:Hzero; trivial.
      destruct (F64Order.zero_cases value Hzero) as [Hv | Hv];
        rewrite Hv in Hpos; discriminate Hpos.
Qed.

(** * Properties of the data the reporting screen charts *)

Module JSObjectFacts.

Import JSObject.

Section Values.

Context {V : Type}.

Implicit Types (object : t V) (key : string) (value : V).

Lemma get_set object key value other :
  get (set object key value) other
  = if String.eqb key other then Some value else get object other.
Proof.
  induction object as [|[k v] rest IH]; simpl.
  - reflexivity.
  - destruct (String.eqb_spec k key) as [->|Hne]; simpl.
    + destruct (String.eqb key other); reflexivity.
    + rewrite IH. destruct (String.eqb_spec k other) as [->|Hne'].
      * destruct (String.eqb_spec key other) as [->|]; [now elim Hne|].
        reflexivity.
      * reflexivity.
Qed.

Lemma keys_set object key value other :
  In other (map fst (set object key value))
  <-> other = key \/ In other (map fst object).
Proof.
  induction object as [|[k v] rest IH]; simpl.
  - intuition.
  - destruct (String.eqb_spec k key) as [->|Hne]; simpl.
    + intuition.
    + rewrite IH. intuition.
Qed.

Lemma keys_set_distinct object key value :
  NoDup (map fst object) -> NoDup (map fst (set object key value)).
Proof.
  induction object as [|[k v] rest IH]; simpl; intros Hdistinct.
  - repeat constructor. intros [].
  - inversion Hdistinct as [|? ? Hfresh Hrest]; subst.
    destruct (String.eqb_spec k key) as [->|Hne]; simpl.
    + now constructor.
    + constructor; [|now apply IH].
      rewrite keys_set. intros [Heq | Hin]; [now elim Hne | contradiction].
Qed.

Lemma get_In object key value :
  NoDup (map fst object) ->
  get object key = Some value <-> In (key, value) object.
Proof.
  induction object as [|[k v] rest IH]; simpl; intros Hdistinct.
  - split; [discriminate | intros []].
  - inversion Hdistinct as [|? ? Hfresh Hrest]; subst.
    destruct (String.eqb_spec k key) as [->|Hne].
    + split.
      * intros [= ->]. now left.
      * intros [[= ->] | Hin]; trivial.
        elim Hfresh. apply in_map_iff. now exists (key, value).
    + rewrite (IH Hrest). split; [now right|].
      intros [[= -> _] | Hin]; [now elim Hne | exact Hin].
Qed.

Lemma insertIndexed_perm (entry : N * (string * V)) sorted :
  Permutation (insertIndexed entry sorted) (entry :: sorted).
Proof.
  induction sorted as [|first rest IH]; simpl; trivial.
  destruct (fst entry <? fst first)%N; trivial.
  rewrite IH. apply perm_swap.
Qed.

Lemma sorted_perm (found : list (N * (string * V))) :
  Permutation (fold_right insertIndexed [] found) found.
Proof.
  induction found as [|entry rest IH]; simpl; trivial.
  rewrite insertIndexed_perm. now constructor.
Qed.

(** Enumeration visits every own property once. *)
Lemma entries_perm object : Permutation (entries object) object.
Proof.
  unfold entries. rewrite sorted_perm.
  induction object as [|[k v] rest IH]; simpl; trivial.
  destruct (arrayIndex k); simpl.
  - now constructor.
  - apply Permutation_sym, Permutation_cons_app, Permutation_sym, IH.
Qed.

Lemma entries_In object entry : In entry (entries object) <-> In entry object.
Proof.
  split; apply Permutation_in;
    [apply entries_perm | apply Permutation_sym, entries_perm].
Qed.

Lemma entries_keys object :
  Permutation (map fst (entries object)) (map fst object).
Proof. apply Permutation_map, entries_perm. Qed.

End Values.

Lemma mapIndexed_from {A B C : Type} (callback : A -> nat -> B)
  (view : B -> C) (through : A -> C) (array : list A) first :
  (forall element index, view (callback element index) = through element) ->
  map view
    (map (fun pair => callback (snd pair) (fst pair))
       (combine (seq first (List.length array)) array))
  = map through array.
Proof.
  intros Hview. revert first.
  induction array as [|element rest IH]; intros first; simpl; trivial.
  now rewrite Hview, IH.
Qed.

Lemma mapIndexed_length {A B : Type} (callback : A -> nat -> B) array :
  List.length (mapIndexed callback array) = List.length array.
Proof.
  unfold mapIndexed.
  rewrite length_map, length_combine, length_seq. apply Nat.min_id.
Qed.

Lemma mapIndexed_nth {A B : Type} (callback : A -> nat -> B) array i item :
  nth_error (mapIndexed callback array) i = Some item ->
  exists element,
    nth_error array i = Some element /\ item = callback element i.
Proof.
  unfold mapIndexed.
  assert (Hfrom : forall first,
    nth_error
      (map (fun pair => callback (snd pair) (fst pair))
         (combine (seq first (List.length array)) array)) i = Some item ->
    exists element,
      nth_error array i = Some element
      /\ item = callback element (first + i)%nat).
  { revert i. induction array as [|element rest IH]; intros i first; simpl.
    - destruct i; discriminate.
    - destruct i as [|i]; simpl.
      + intros [= <-]. exists element. now rewrite Nat.add_0_r.
      + intros Hnth. destruct (IH _ _ Hnth) as (found & Hfound & ->).
        exists found. split; trivial. f_equal. lia. }
  apply Hfrom.
Qed.

End JSObjectFacts.

Module ReportingFacts.

Import Reporting.

Lemma counts_partition (transactions : list Transactions.Transaction) :
  (List.length (filter Transactions.isIn transactions)
   + List.length (filter Transactions.isOut transactions)
   = List.length transactions)%nat.
Proof.
  induction transactions as [|t rest IH]; simpl; trivial.
  destruct t as [? ? ? ? ? [|] ?]; simpl; lia.
Qed.

Lemma addExpense_keys expenses transactions m :
  In m (map fst (fold_left addExpense transactions expenses))
  <-> In m (map fst expenses)
      \/ exists t, In t transactions /\ Transactions.material t = m.
Proof.
  revert expenses.
  induction transactions as [|t rest IH]; intros expenses; simpl.
  - split; [now left | intros [Hin | (t & [] & _)]; exact Hin].
  - rewrite IH. unfold addExpense at 1. rewrite JSObjectFacts.keys_set.
    split.
    + intros [[-> | Hin] | (t' & Hin & Hm)].
      * right. exists t. split; [now left | reflexivity].
      * now left.
      * right. exists t'. split; [now right | exact Hm].
    + intros [Hin | (t' & [<- | Hin] & Hm)].
      * left. now right.
      * left. left. now symmetry.
      * right. now exists t'.
Qed.

Lemma addExpense_distinct expenses transactions :
  NoDup (map fst expenses) ->
  NoDup (map fst (fold_left addExpense transactions expenses)).
Proof.
  revert expenses.
  induction transactions as [|t rest IH]; intros expenses Hdistinct; simpl.
  - exact Hdistinct.
  - apply IH. now apply JSObjectFacts.keys_set_distinct.
Qed.

(** The sum of a material is made from the expenses of that material
    alone, in their order. *)
Lemma addExpense_get expenses transactions m :
  JSObject.get (fold_left addExpense transactions expenses) m
  = fold_left
      (fun sum t => Some (orZero sum + Transactions.amount t)%float)
      (filter (fun t => String.eqb (Transactions.material t) m) transactions)
      (JSObject.get expenses m).
Proof.
  revert expenses.
  induction transactions as [|t rest IH]; intros expenses; simpl; trivial.
  rewrite IH. unfold addExpense at 1. rewrite JSObjectFacts.get_set.
  destruct (String.eqb_spec (Transactions.material t) m) as [->|Hne];
    reflexivity.
Qed.

Lemma filter_filter {A : Type} (p q : A -> bool) (l : list A) :
  filter q (filter p l) = filter (fun a => p a && q a) l.
Proof.
  induction l as [|a rest IH]; simpl; trivial.
  destruct (p a); simpl; [destruct (q a)|]; now rewrite IH.
Qed.

Lemma pieChartData_names monthlyTransactions :
  map name (pieChartData monthlyTransactions)
  = map fst (JSObject.entries (getExpensesByMaterial monthlyTransactions)).
Proof.
  unfold pieChartData, JSObject.mapIndexed.
  now apply (JSObjectFacts.mapIndexed_from chartItem name fst).
Qed.

End ReportingFacts.

Module ChartFeedFacts.

Import Reporting.

Lemma set_length {V : Type} (object : JSObject.t V) key value :
  (List.length (JSObject.set object key value) <= S (List.length object))%nat.
Proof.
  induction object as [|[k v] rest IH]; simpl; trivial.
  destruct (String.eqb k key); simpl; lia.
Qed.

Lemma addExpense_length expenses transactions :
  (List.length (fold_left addExpense transactions expenses)
   <= List.length expenses + List.length transactions)%nat.
Proof.
  revert expenses.
  induction transactions as [|t rest IH]; intros expenses; simpl; [lia|].
  specialize (IH (addExpense expenses t)).
  assert (Hset : (List.length (addExpense expenses t)
                  <= S (List.length expenses))%nat)
    by apply set_length.
  lia.
Qed.

Lemma expenses_distinct monthlyTransactions :
  NoDup (map fst (getExpensesByMaterial monthlyTransactions)).
Proof. apply ReportingFacts.addExpense_distinct. constructor. Qed.

Lemma names_spec monthlyTransactions m :
  In m (map name (pieChartData monthlyTransactions))
  <-> exists t,
        In t monthlyTransactions
        /\ Transactions.isOut t = true
        /\ Transactions.material t = m.
Proof.
  rewrite ReportingFacts.pieChartData_names.
  assert (Hkeys : In m (map fst (JSObject.entries
                                   (getExpensesByMaterial monthlyTransactions)))
                  <-> In m (map fst (getExpensesByMaterial
                                       monthlyTransactions))).
  { split; apply Permutation_in;
      [|apply Permutation_sym]; apply JSObjectFacts.entries_keys. }
  rewrite Hkeys.
  unfold getExpensesByMaterial. rewrite ReportingFacts.addExpense_keys.
  simpl. split.
  - intros [[] | (t & Hin & Hm)]. apply filter_In in Hin.
    exists t. tauto.
  - intros (t & Hin & Hout & Hm). right. exists t.
    rewrite filter_In. tauto.
Qed.

Lemma item_amount monthlyTransactions item :
  In item (pieChartData monthlyTransactions) ->
  accumulate (expensesOf (name item) monthlyTransactions)
  = Some (amount item).
Proof.
  intros Hin. apply In_nth_error in Hin. destruct Hin as [i Hnth].
  apply JSObjectFacts.mapIndexed_nth in Hnth.
  destruct Hnth as ([m sum] & Hentry & ->). simpl.
  apply nth_error_In in Hentry.
  apply (proj1 (JSObjectFacts.entries_In _ _)) in Hentry.
  apply (proj2 (JSObjectFacts.get_In _ _ _
                  (expenses_distinct monthlyTransactions))) in Hentry.
  unfold getExpensesByMaterial in Hentry.
  rewrite ReportingFacts.addExpense_get, ReportingFacts.filter_filter
    in Hentry.
  exact Hentry.
Qed.

End ChartFeedFacts.

(** X14.  Every transaction of the month is counted once, as an income
    or as an expense: the two counts add up to the count of
    transactions, also over a month put together from two lists. *)
Theorem monthly_counts_add_up :
  forall (first second : list Transactions.Transaction),
    let totals := Reporting.calculateMonthlyTotals (first ++ second) in
    (Reporting.incomeCount totals + Reporting.expenseCount totals
     = Reporting.transactionCount totals)%nat
    /\ Reporting.incomeCount totals
       = (Reporting.incomeCount (Reporting.calculateMonthlyTotals first)
          + Reporting.incomeCount (Reporting.calculateMonthlyTotals second))%nat
    /\ Reporting.expenseCount totals
       = (Reporting.expenseCount (Reporting.calculateMonthlyTotals first)
          + Reporting.expenseCount
              (Reporting.calculateMonthlyTotals second))%nat.
Proof.
  intros first second totals. unfold totals. simpl. repeat split.
  - apply ReportingFacts.counts_partition.
  - now rewrite filter_app, length_app.
  - now rewrite filter_app, length_app.
Qed.

(** X15.  The chart gets one data point per material that has an expense
    in the month: the names of the data points are distinct, a name is
    charted exactly when some expense of the month is booked on it, there
    are no more data points than expenses, and the chart section is left
    out exactly when the month has no expense.  (For materials that are
    not named like a member of [Object.prototype].) *)
Theorem chart_points_are_the_materials :
  forall (monthlyTransactions : list Transactions.Transaction),
    Forall (fun t => JSObject.inherited (Transactions.material t) = false)
      monthlyTransactions ->
    let data := Reporting.pieChartData monthlyTransactions in
    NoDup (map name data)
    /\ (forall material,
           In material (map name data)
           <-> exists t,
                 In t monthlyTransactions
                 /\ Transactions.isOut t = true
                 /\ Transactions.material t = material)
    /\ (List.length data
        <= List.length (filter Transactions.isOut monthlyTransactions))%nat
    /\ (forall (host : Host float) width selectedIndex,
           Reporting.chartSection width monthlyTransactions selectedIndex
           = None
           <-> forall t,
                 In t monthlyTransactions -> Transactions.isOut t = false).
Proof.
  intros monthlyTransactions _ data.
  assert (Hempty : data = []
                   <-> forall t, In t monthlyTransactions ->
                                 Transactions.isOut t = false).
  { split.
    - intros Hnone t Hin.
      destruct (Transactions.isOut t) eqn:Hout; trivial.
      assert (Hname : In (Transactions.material t) (map name data))
        by (apply ChartFeedFacts.names_spec; now exists t).
      rewrite Hnone in Hname. destruct Hname.
    - intros Hnone. destruct data as [|item rest] eqn:Hdata; trivial.
      assert (Hname : In (name item) (map name data))
        by (rewrite Hdata; now left).
      apply ChartFeedFacts.names_spec in Hname.
      destruct Hname as (t & Hin & Hout & _).
      rewrite (Hnone t Hin) in Hout. discriminate Hout. }
  split; [|split; [|split]].
  - unfold data. rewrite ReportingFacts.pieChartData_names.
    apply (Permutation_NoDup
             (Permutation_sym (JSObjectFacts.entries_keys _))).
    apply ChartFeedFacts.expenses_distinct.
  - apply ChartFeedFacts.names_spec.
  - unfold data, Reporting.pieChartData.
    rewrite JSObjectFacts.mapIndexed_length.
    rewrite (Permutation_length (JSObjectFacts.entries_perm _)).
    apply (ChartFeedFacts.addExpense_length JSObject.empty).
  - intros host width selectedIndex. rewrite <- Hempty.
    unfold Reporting.chartSection. fold data.
    destruct data; split; trivial; discriminate.
Qed.

Lemma chart_points_are_the_materials_witness :
  Forall (fun t => JSObject.inherited (Transactions.material t) = false)
    [sampleTransaction "Sand" 5%float Transactions.PaymentOut;
     sampleTransaction "Glass" 9%float Transactions.PaymentIn;
     sampleTransaction "Sand" 2%float Transactions.PaymentOut]
  /\ NoDup
       (map name
          (Reporting.pieChartData
             [sampleTransaction "Sand" 5%float Transactions.PaymentOut;
              sampleTransaction "Glass" 9%float Transactions.PaymentIn;
              sampleTransaction "Sand" 2%float Transactions.PaymentOut])).
Proof.
  assert (Hnames :
    Forall (fun t => JSObject.inherited (Transactions.material t) = false)
      [sampleTransaction "Sand" 5%float Transactions.PaymentOut;
       sampleTransaction "Glass" 9%float Transactions.PaymentIn;
       sampleTransaction "Sand" 2%float Transactions.PaymentOut])
    by (repeat constructor).
  split; [exact Hnames|].
  apply (chart_points_are_the_materials
           [sampleTransaction "Sand" 5%float Transactions.PaymentOut;
            sampleTransaction "Glass" 9%float Transactions.PaymentIn;
            sampleTransaction "Sand" 2%float Transactions.PaymentOut]
           Hnames).
Defined.

(** X16.  Every data point of the chart has a colour of the palette: the
    point at position [i] has the colour at position [i mod 10] of
    [CHART_COLORS], so the colours repeat from the eleventh point on. *)
Theorem chart_colours_cycle :
  forall (monthlyTransactions : list Transactions.Transaction) (i : nat)
    (item : PieChartData),
    nth_error (Reporting.pieChartData monthlyTransactions) i = Some item ->
    nth_error Reporting.CHART_COLORS (i mod 10) = Some (color item)
    /\ In (color item) Reporting.CHART_COLORS
    /\ forall later,
        nth_error (Reporting.pieChartData monthlyTransactions) (i + 10)
        = Some later ->
        color later = color item.
Proof.
  intros monthlyTransactions i item Hnth.
  assert (Hcolour : forall j point,
    nth_error (Reporting.pieChartData monthlyTransactions) j = Some point ->
    nth_error Reporting.CHART_COLORS (j mod 10) = Some (color point)).
  { intros j point Hj.
    apply JSObjectFacts.mapIndexed_nth in Hj.
    destruct Hj as (entry & _ & ->).
    unfold Reporting.chartItem. cbn [color].
    change (List.length Reporting.CHART_COLORS) with 10%nat.
    apply nth_error_nth'.
    change (List.length Reporting.CHART_COLORS) with 10%nat.
    apply Nat.mod_upper_bound. discriminate. }
  split; [now apply Hcolour|]. split.
  - exact (nth_error_In _ _ (Hcolour i item Hnth)).
  - intros later Hlater. apply Hcolour in Hnth, Hlater.
    replace ((i + 10) mod 10)%nat with (i mod 10)%nat in Hlater.
    + congruence.
    + rewrite <- (Nat.Div0.add_mod_idemp_r i 10 10).
      now rewrite Nat.Div0.mod_same, Nat.add_0_r.
Qed.

Lemma chart_colours_cycle_witness :
  nth_error
    (Reporting.pieChartData
       [sampleTransaction "Sand" 5%float Transactions.PaymentOut;
        sampleTransaction "Glass" 9%float Transactions.PaymentOut]) 1
  = Some {| name := "Glass"; amount := 9%float; color := "#36A2EB" |}
  /\ nth_error Reporting.CHART_COLORS (1 mod 10) = Some "#36A2EB".
Proof.
  split; [reflexivity|].
  apply (chart_colours_cycle
           [sampleTransaction "Sand" 5%float Transactions.PaymentOut;
            sampleTransaction "Glass" 9%float Transactions.PaymentOut]
           1 {| name := "Glass"; amount := 9%float; color := "#36A2EB" |}).
  reflexivity.
Defined.

(** X17.  The amount charted for a material is made from the expenses of
    that material alone, taken in their order: the other transactions of
    the month, and where they stand between them, have no part in it.
    Each expense is added to the sum so far, a sum of 0 or NaN counting
    as 0; so a material with a single expense is charted with
    0 + its amount.  (For materials that are not named like a member of
    [Object.prototype].) *)
Theorem charted_amount_of_a_material :
  forall (monthlyTransactions : list Transactions.Transaction)
    (item : PieChartData),
    Forall (fun t => JSObject.inherited (Transactions.material t) = false)
      monthlyTransactions ->
    In item (Reporting.pieChartData monthlyTransactions) ->
    Reporting.accumulate
      (Reporting.expensesOf (name item) monthlyTransactions)
    = Some (amount item)
    /\ forall only,
        Reporting.expensesOf (name item) monthlyTransactions = [only] ->
        amount item = (0 + Transactions.amount only)%float.
Proof.
  intros monthlyTransactions item _ Hin.
  pose proof (ChartFeedFacts.item_amount monthlyTransactions item Hin)
    as Hsum.
  split; [exact Hsum|].
  intros only Honly. rewrite Honly in Hsum. simpl in Hsum.
  now injection Hsum.
Qed.

Lemma charted_amount_of_a_material_witness :
  (Forall (fun t => JSObject.inherited (Transactions.material t) = false)
     [sampleTransaction "Sand" 5%float Transactions.PaymentOut;
      sampleTransaction "Glass" 9%float Transactions.PaymentOut;
      sampleTransaction "Sand" 2%float Transactions.PaymentOut]
   /\ In {| name := "Sand"; amount := 7%float; color := "#FF6384" |}
        (Reporting.pieChartData
           [sampleTransaction "Sand" 5%float Transactions.PaymentOut;
            sampleTransaction "Glass" 9%float Transactions.PaymentOut;
            sampleTransaction "Sand" 2%float Transactions.PaymentOut]))
  /\ Reporting.accumulate
       (Reporting.expensesOf "Sand"
          [sampleTransaction "Sand" 5%float Transactions.PaymentOut;
           sampleTransaction "Glass" 9%float Transactions.PaymentOut;
           sampleTransaction "Sand" 2%float Transactions.PaymentOut])
     = Some 7%float.
Proof.
  assert (Hnames :
    Forall (fun t => JSObject.inherited (Transactions.material t) = false)
      [sampleTransaction "Sand" 5%float Transactions.PaymentOut;
       sampleTransaction "Glass" 9%float Transactions.PaymentOut;
       sampleTransaction "Sand" 2%float Transactions.PaymentOut])
    by (repeat constructor).
  assert (Hin :
    In {| name := "Sand"; amount := 7%float; color := "#FF6384" |}
      (Reporting.pieChartData
         [sampleTransaction "Sand" 5%float Transactions.PaymentOut;
          sampleTransaction "Glass" 9%float Transactions.PaymentOut;
          sampleTransaction "Sand" 2%float Transactions.PaymentOut]))
    by (left; reflexivity).
  split; [split; assumption|].
  apply (charted_amount_of_a_material _ _ Hnames Hin).
Defined.

(** * Properties of the chart service *)

Module GroupFacts.

Import ChartService.

Lemma transactionsOf_app m done rest :
  transactionsOf m (done ++ rest)
  = (transactionsOf m done ++ transactionsOf m rest)%list.
Proof. apply filter_app. Qed.

Lemma transactionsOf_In m transactions t :
  In t (transactionsOf m transactions)
  <-> In t transactions /\ Transactions.material t = m.
Proof.
  unfold transactionsOf. rewrite filter_In.
  now destruct (String.eqb_spec (Transactions.material t) m).
Qed.

Lemma held_snoc_same done t :
  held (Transactions.material t) (done ++ [t])
  = Some (transactionsOf (Transactions.material t) done ++ [t])%list.
Proof.
  unfold held. rewrite transactionsOf_app.
  unfold transactionsOf at 2. simpl. rewrite String.eqb_refl.
  now destruct (transactionsOf (Transactions.material t) done).
Qed.

Lemma held_snoc_other done t m :
  Transactions.material t <> m -> held m (done ++ [t]) = held m done.
Proof.
  intros Hne. unfold held. rewrite transactionsOf_app.
  unfold transactionsOf at 2. simpl.
  destruct (String.eqb_spec (Transactions.material t) m) as [E|_];
    [now elim Hne|].
  now rewrite app_nil_r.
Qed.

Lemma held_Some m transactions group :
  held m transactions = Some group ->
  group = transactionsOf m transactions /\ group <> [].
Proof.
  unfold held. destruct (transactionsOf m transactions) eqn:E.
  - discriminate.
  - intros [= <-]. split; [reflexivity | discriminate].
Qed.

Lemma held_None m transactions :
  held m transactions = None -> transactionsOf m transactions = [].
Proof. unfold held. now destruct (transactionsOf m transactions). Qed.

Lemma forEachGroup_spec rest : forall done grouped,
  Forall plain done ->
  NoDup (map fst grouped) ->
  (forall m, JSObject.get grouped m = held m done) ->
  match forEachGroup rest grouped with
  | None =>
      Exists (fun t => JSObject.inherited (Transactions.material t) = true)
        rest
  | Some groups =>
      Forall plain (done ++ rest)
      /\ NoDup (map fst groups)
      /\ forall m, JSObject.get groups m = held m (done ++ rest)
  end.
Proof.
  induction rest as [|t rest IH]; intros done grouped Hplain Hdistinct Hget.
  - simpl. rewrite app_nil_r. auto.
  - cbn [forEachGroup]. unfold addToGroup.
    assert (Hnext : forall group,
      Forall plain (done ++ [t]) ->
      (group ++ [t])%list
      = (transactionsOf (Transactions.material t) done ++ [t])%list ->
      match
        forEachGroup rest
          (JSObject.set grouped (Transactions.material t) (group ++ [t])%list)
      with
      | None =>
          Exists
            (fun t => JSObject.inherited (Transactions.material t) = true)
            (t :: rest)
      | Some groups =>
          Forall plain (done ++ t :: rest)
          /\ NoDup (map fst groups)
          /\ forall m, JSObject.get groups m = held m (done ++ t :: rest)
      end).
    { intros group Hall Hgroup.
      specialize (IH (done ++ [t])%list
        (JSObject.set grouped (Transactions.material t) (group ++ [t])%list)
        Hall (JSObjectFacts.keys_set_distinct _ _ _ Hdistinct)).
      rewrite <- app_assoc in IH. simpl in IH.
      destruct (forEachGroup rest _).
      - apply IH. intros m. rewrite JSObjectFacts.get_set.
        destruct (String.eqb_spec (Transactions.material t) m) as [<-|Hne].
        + now rewrite held_snoc_same, Hgroup.
        + now rewrite held_snoc_other, Hget.
      - apply Exists_cons_tl. apply IH. intros m.
        rewrite JSObjectFacts.get_set.
        destruct (String.eqb_spec (Transactions.material t) m) as [<-|Hne].
        + now rewrite held_snoc_same, Hgroup.
        + now rewrite held_snoc_other, Hget. }
    destruct (JSObject.get grouped (Transactions.material t)) as [group|]
      eqn:Eget.
    + rewrite Hget in Eget. apply held_Some in Eget as [Egroup Hsome].
      apply Hnext; [|now rewrite Egroup].
      apply Forall_app. split; [assumption|]. constructor; [|constructor].
      destruct (transactionsOf (Transactions.material t) done) as [|t' ?]
        eqn:Eof; [now elim Hsome|].
      assert (Hin : In t' (transactionsOf (Transactions.material t) done))
        by (rewrite Eof; now left).
      apply transactionsOf_In in Hin as [Hin Hsame].
      rewrite Forall_forall in Hplain. specialize (Hplain t' Hin).
      unfold plain in *. now rewrite <- Hsame.
    + destruct (JSObject.inherited (Transactions.material t)) eqn:Einh.
      * now apply Exists_cons_hd.
      * rewrite Hget in Eget. apply held_None in Eget.
        apply Hnext.
        -- apply Forall_app. split; [assumption|]. now repeat constructor.
        -- now rewrite Eget.
Qed.

Lemma groupByMaterial_spec transactions :
  match groupByMaterial transactions with
  | None =>
      Exists (fun t => JSObject.inherited (Transactions.material t) = true)
        transactions
  | Some groups =>
      Forall plain transactions
      /\ NoDup (map fst groups)
      /\ forall m, JSObject.get groups m = held m transactions
  end.
Proof.
  apply (forEachGroup_spec transactions [] JSObject.empty).
  - constructor.
  - constructor.
  - reflexivity.
Qed.

End GroupFacts.

Module F64Sums.

Import F64Facts.

Open Scope float_scope.

Lemma zero_add x y :
  F64.isZero x = true -> F64.isZero y = true -> F64.isZero (x + y) = true.
Proof.
  intros Hx Hy.
  destruct (isZero_spec x Hx) as [s Es], (isZero_spec y Hy) as [t Et].
  unfold F64.isZero. rewrite FloatAxioms.eqb_spec, FloatAxioms.add_spec, Es, Et.
  destruct s, t; reflexivity.
Qed.

Lemma zero_opp x : F64.isZero x = true -> F64.isZero (- x) = true.
Proof.
  intros Hx. destruct (isZero_spec x Hx) as [s Es].
  unfold F64.isZero. rewrite FloatAxioms.eqb_spec, FloatAxioms.opp_spec, Es.
  destruct s; reflexivity.
Qed.

Lemma zero_abs x : F64.isZero x = true -> F64.isZero (abs x) = true.
Proof.
  intros Hx. destruct (isZero_spec x Hx) as [s Es].
  unfold F64.isZero. rewrite FloatAxioms.eqb_spec, FloatAxioms.abs_spec, Es.
  reflexivity.
Qed.

Lemma finite_add x y :
  F64.isFinite (x + y) = true ->
  F64.isFinite x = true /\ F64.isFinite y = true.
Proof.
  intros Hsum. split.
  - destruct (F64.isFinite x) eqn:E; [reflexivity|].
    now rewrite (add_nonfinite_l x y E) in Hsum.
  - destruct (F64.isFinite y) eqn:E; [reflexivity|].
    now rewrite (add_nonfinite_r x y E) in Hsum.
Qed.

Lemma finite_abs x : F64.isFinite (abs x) = F64.isFinite x.
Proof.
  rewrite !isFinite_spec, FloatAxioms.abs_spec.
  now destruct (Prim2SF x).
Qed.

Lemma abs_sign x : (abs x <? 0) = false.
Proof.
  rewrite FloatAxioms.ltb_spec, FloatAxioms.abs_spec.
  change (Prim2SF 0) with (S754_zero false).
  now destruct (Prim2SF x).
Qed.

Lemma is_nan_spec x : is_nan x = false <-> Prim2SF x <> S754_nan.
Proof.
  split.
  - intros Hx E. apply nan_spec in E. subst x. discriminate Hx.
  - intros Hx. destruct (is_nan x) eqn:E; [|reflexivity].
    apply (proj1 (isNaN_true x)) in E. subst x. now elim Hx.
Qed.

(** Rounding a mantissa that is not negative never gives NaN. *)
Lemma shr_1_sign mrs : (0 <= shr_m mrs)%Z -> (0 <= shr_m (shr_1 mrs))%Z.
Proof.
  destruct mrs as [m r s]. simpl.
  destruct m as [|[p|p|]|p]; simpl; lia.
Qed.

Lemma iter_shr_1_sign p : forall mrs,
  (0 <= shr_m mrs)%Z -> (0 <= shr_m (SpecFloat.iter_pos shr_1 p mrs))%Z.
Proof.
  induction p as [p IH|p IH|]; intros mrs Hm; simpl.
  - apply IH, IH, shr_1_sign, Hm.
  - apply IH, IH, Hm.
  - apply shr_1_sign, Hm.
Qed.

Lemma shr_fexp_sign m e l :
  (0 <= m)%Z -> (0 <= shr_m (fst (shr_fexp prec emax m e l)))%Z.
Proof.
  intros Hm. unfold shr_fexp, shr.
  assert (Hstart : (0 <= shr_m (shr_record_of_loc m l))%Z)
    by (destruct l as [|[ | | ]]; exact Hm).
  destruct (_ - e)%Z; simpl; trivial.
  now apply iter_shr_1_sign.
Qed.

Lemma round_nearest_even_sign m l :
  (0 <= m)%Z -> (0 <= round_nearest_even m l)%Z.
Proof.
  intros Hm. destruct l as [|[ | | ]]; simpl; try lia.
  destruct (Z.even m); lia.
Qed.

Lemma round_number s m e l :
  (0 <= m)%Z -> binary_round_aux prec emax s m e l <> S754_nan.
Proof.
  intros Hm. unfold binary_round_aux.
  pose proof (shr_fexp_sign m e l Hm) as Hfirst.
  destruct (shr_fexp prec emax m e l) as [mrs' e']. simpl in Hfirst.
  pose proof (shr_fexp_sign _ e' loc_Exact
                (round_nearest_even_sign _ (loc_of_shr_record mrs') Hfirst))
    as Hsecond.
  destruct (shr_fexp prec emax _ e' loc_Exact) as [mrs'' e''].
  simpl in Hsecond.
  destruct (shr_m mrs'') as [|p|p]; [discriminate| |lia].
  destruct (e'' <=? emax - prec)%Z; discriminate.
Qed.

Lemma div_core_sign m1 e1 m2 e2 :
  (0 <= fst (fst (SFdiv_core_binary prec emax (Zpos m1) e1 (Zpos m2) e2)))%Z.
Proof.
  unfold SFdiv_core_binary.
  set (shift := (e1 - e2 - _)%Z).
  set (m' := match shift with
             | Z0 => Zpos m1
             | Zpos _ => Z.shiftl (Zpos m1) shift
             | Zneg _ => 0%Z
             end).
  assert (Hm' : (0 <= m')%Z).
  { unfold m'. destruct shift; try lia. apply Z.shiftl_nonneg. lia. }
  pose proof (Z_div_mod m' (Zpos m2) eq_refl) as Hdiv.
  destruct (Z.div_eucl m' (Zpos m2)) as [q r]. simpl.
  destruct Hdiv as [Hm Hr]. nia.
Qed.

Lemma div_number x y :
  F64.isFinite x = true -> F64.isFinite y = true -> F64.isZero y = false ->
  is_nan (x / y) = false.
Proof.
  intros Hx Hy Hn.
  destruct (finite_nonzero_spec y Hy Hn) as (t & n & f & Ey).
  apply is_nan_spec. rewrite FloatAxioms.div_spec, Ey.
  rewrite isFinite_spec in Hx.
  destruct (Prim2SF x) as [s|s| |s m e]; try discriminate.
  unfold SF64div, SFdiv.
  pose proof (div_core_sign m e n f) as Hq.
  destruct (SFdiv_core_binary prec emax (Zpos m) e (Zpos n) f) as [[q e'] l].
  now apply round_number.
Qed.

Lemma mul_100_number x : is_nan x = false -> is_nan (x * 100) = false.
Proof.
  rewrite !is_nan_spec, FloatAxioms.mul_spec. intros Hx.
  destruct (Prim2SF 100) as [t|t| |t n f] eqn:E; try discriminate E.
  destruct (Prim2SF x) as [s|s| |s m e]; try discriminate; [now elim Hx|].
  unfold SF64mul, SFmul. apply round_number. lia.
Qed.

End F64Sums.

Module ServiceFacts.

Import ChartService.

Lemma set_fresh {V : Type} (object : JSObject.t V) key value :
  ~ In key (map fst object) ->
  JSObject.set object key value = (object ++ [(key, value)])%list.
Proof.
  induction object as [|[k v] rest IH]; simpl; intros Hfresh.
  - reflexivity.
  - destruct (String.eqb_spec k key) as [->|Hne].
    + elim Hfresh. now left.
    + rewrite IH; [reflexivity|]. intros Hin. apply Hfresh. now right.
Qed.

Lemma fold_set_fresh {A V : Type} (value : string * A -> V)
  (array : list (string * A)) : forall (totals : JSObject.t V),
  NoDup (map fst totals ++ map fst array)%list ->
  fold_left
    (fun totals entry => JSObject.set totals (fst entry) (value entry))
    array totals
  = (totals ++ map (fun entry => (fst entry, value entry)) array)%list.
Proof.
  induction array as [|entry array IH]; intros totals Hdistinct; simpl.
  - now rewrite app_nil_r.
  - simpl in Hdistinct.
    pose proof (NoDup_remove _ _ _ Hdistinct) as [_ Hfresh].
    rewrite set_fresh.
    + rewrite IH.
      * now rewrite <- app_assoc.
      * rewrite map_app, <- app_assoc. exact Hdistinct.
    + intros Hin. apply Hfresh, in_or_app. now left.
Qed.

Lemma get_keys {V : Type} (object : JSObject.t V) key :
  In key (map fst object) <-> exists value, JSObject.get object key = Some value.
Proof.
  induction object as [|[k v] rest IH]; simpl.
  - split; [intros [] | intros [? [=]]].
  - destruct (String.eqb_spec k key) as [->|Hne].
    + split; eauto.
    + rewrite <- IH. split; [intros [E|Hin]; [now elim Hne | exact Hin]|].
      intros Hin. now right.
Qed.

Lemma entries_distinct {V : Type} (object : JSObject.t V) :
  NoDup (map fst object) -> NoDup (map fst (JSObject.entries object)).
Proof.
  apply Permutation_NoDup, Permutation_sym, JSObjectFacts.entries_keys.
Qed.

Lemma materialTotals_spec type groups :
  NoDup (map fst groups) ->
  materialTotals type groups
  = map (fun entry =>
           (fst entry, fold_left (addSigned type) (snd entry) 0%float))
      (JSObject.entries groups).
Proof.
  intros Hdistinct. unfold materialTotals.
  rewrite (fold_set_fresh
             (fun entry => fold_left (addSigned type) (snd entry) 0%float)).
  - reflexivity.
  - simpl. now apply entries_distinct.
Qed.

Lemma materialTotals_keys type groups :
  NoDup (map fst groups) ->
  map fst (materialTotals type groups) = map fst (JSObject.entries groups).
Proof.
  intros Hdistinct. rewrite materialTotals_spec, map_map by assumption.
  reflexivity.
Qed.

(** Every total is the signed sum of the transactions of its material. *)
Lemma materialTotals_In type transactions groups key value :
  groupByMaterial transactions = Some groups ->
  In (key, value) (materialTotals type groups) ->
  value
  = fold_left (addSigned type) (transactionsOf key transactions) 0%float.
Proof.
  intros Hgroups Hin.
  pose proof (GroupFacts.groupByMaterial_spec transactions) as Hspec.
  rewrite Hgroups in Hspec. destruct Hspec as (_ & Hdistinct & Hheld).
  rewrite materialTotals_spec in Hin by assumption.
  apply in_map_iff in Hin as ([k group] & [= <- <-] & Hin).
  apply (proj1 (JSObjectFacts.entries_In _ _)) in Hin.
  apply (proj2 (JSObjectFacts.get_In _ _ _ Hdistinct)) in Hin.
  rewrite Hheld in Hin. apply GroupFacts.held_Some in Hin as [-> _].
  reflexivity.
Qed.

Lemma chartData_names totals :
  map name (chartData totals) = map fst (JSObject.entries totals).
Proof.
  apply (JSObjectFacts.mapIndexed_from (chartItem (total totals)) name fst).
  reflexivity.
Qed.

Lemma chartData_amounts totals :
  map amount (chartData totals)
  = map (fun entry => PrimFloat.abs (snd entry)) (JSObject.entries totals).
Proof.
  apply (JSObjectFacts.mapIndexed_from (chartItem (total totals)) amount
           (fun entry => PrimFloat.abs (snd entry))).
  reflexivity.
Qed.

Lemma chartData_In totals item :
  In item (chartData totals) ->
  exists entry index,
    In entry totals /\ item = chartItem (total totals) entry index.
Proof.
  intros Hin. apply In_nth_error in Hin as [index Hnth].
  apply JSObjectFacts.mapIndexed_nth in Hnth as (entry & Hentry & ->).
  exists entry, index. split; [|reflexivity].
  apply JSObjectFacts.entries_In. eapply nth_error_In, Hentry.
Qed.

Lemma fold_left_map {A B C : Type} (f : A -> C -> A) (g : B -> C) l :
  forall a, fold_left f (map g l) a = fold_left (fun a b => f a (g b)) l a.
Proof. induction l as [|b l IH]; intros a; simpl; [reflexivity | apply IH]. Qed.

(** The total is the sum of the amounts of the items, in the order in
    which they are made. *)
Lemma total_of_items totals :
  total totals
  = fold_left (fun sum item => (sum + amount item)%float) (chartData totals)
      0%float.
Proof.
  unfold total, JSObject.values.
  rewrite fold_left_map.
  rewrite <- (fold_left_map (fun sum a => (sum + a)%float)
                (fun entry => PrimFloat.abs (snd entry))).
  rewrite <- chartData_amounts.
  now rewrite fold_left_map.
Qed.

Lemma filtered_In type transactions t :
  In t (filteredTransactions type transactions) -> In t transactions.
Proof.
  destruct type; simpl; trivial; intros Hin;
    now apply filter_In in Hin.
Qed.

Section Returned.

Variable sort :
  (ChartDataItem -> ChartDataItem -> float) ->
  list ChartDataItem -> list ChartDataItem.

Hypothesis sort_permutes :
  forall comparefn array, Permutation (sort comparefn array) array.

(** The two ways in which the service returns. *)
Lemma generate_cases transactions type items :
  generatePieChartData sort transactions type = Some items ->
  exists groups,
    groupByMaterial (filteredTransactions type transactions) = Some groups
    /\ ((F64.isZero (total (materialTotals type groups)) = true
         /\ items = [])
        \/ (F64.isZero (total (materialTotals type groups)) = false
            /\ Permutation items (chartData (materialTotals type groups)))).
Proof.
  unfold generatePieChartData.
  destruct (groupByMaterial _) as [groups|]; [|discriminate].
  intros Hitems. exists groups. split; [reflexivity|].
  destruct (F64.isZero _).
  - left. split; [reflexivity|]. now injection Hitems.
  - right. split; [reflexivity|]. injection Hitems as <-.
    apply sort_permutes.
Qed.

Lemma generate_nonempty transactions type items :
  generatePieChartData sort transactions type = Some items ->
  items <> [] ->
  exists groups,
    groupByMaterial (filteredTransactions type transactions) = Some groups
    /\ F64.isZero (total (materialTotals type groups)) = false
    /\ Permutation items (chartData (materialTotals type groups)).
Proof.
  intros Hitems Hsome.
  destruct (generate_cases _ _ _ Hitems) as (groups & Hgroups & Hcase).
  exists groups. split; [assumption|].
  destruct Hcase as [[_ Hnone] | Hcase]; [now elim Hsome | assumption].
Qed.

End Returned.

Lemma insertSorted_perm {A : Type} (comparefn : A -> A -> float) item sorted :
  Permutation (insertSorted comparefn item sorted) (item :: sorted).
Proof.
  induction sorted as [|first rest IH]; simpl.
  - apply Permutation_refl.
  - destruct (PrimFloat.ltb _ _); [apply Permutation_refl|].
    eapply Permutation_trans; [apply perm_skip, IH | apply perm_swap].
Qed.

Lemma stableSort_perm {A : Type} (comparefn : A -> A -> float) array :
  Permutation (stableSort comparefn array) array.
Proof.
  unfold stableSort.
  assert (Hfrom : forall sorted,
    Permutation
      (fold_left (fun sorted item => insertSorted comparefn item sorted)
         array sorted)
      (sorted ++ array)%list).
  { induction array as [|item array IH]; intros sorted; simpl.
    - rewrite app_nil_r. apply Permutation_refl.
    - eapply Permutation_trans; [apply IH|].
      eapply Permutation_trans;
        [apply Permutation_app_tail, insertSorted_perm|].
      simpl. apply Permutation_middle. }
  apply (Hfrom []).
Qed.

Lemma zero_sum type group : forall sum,
  F64.isZero sum = true ->
  Forall (fun t => F64.isZero (Transactions.amount t) = true) group ->
  F64.isZero (fold_left (addSigned type) group sum) = true.
Proof.
  induction group as [|t group IH]; intros sum Hsum Hzero; simpl.
  - exact Hsum.
  - inversion Hzero as [|? ? Ht Hrest]; subst.
    apply IH; [|assumption].
    unfold addSigned. destruct type; try now apply F64Sums.zero_add.
    destruct (Transactions.isIn t); apply F64Sums.zero_add; trivial.
    now apply F64Sums.zero_opp.
Qed.

Lemma zero_total values : forall sum,
  F64.isZero sum = true ->
  Forall (fun value => F64.isZero value = true) values ->
  F64.isZero
    (fold_left (fun sum amount => (sum + PrimFloat.abs amount)%float)
       values sum) = true.
Proof.
  induction values as [|value values IH]; intros sum Hsum Hzero; simpl.
  - exact Hsum.
  - inversion Hzero as [|? ? Hvalue Hrest]; subst.
    apply IH; [|assumption].
    apply F64Sums.zero_add; [assumption|]. now apply F64Sums.zero_abs.
Qed.

Lemma finite_total values : forall sum,
  F64.isFinite
    (fold_left (fun sum amount => (sum + PrimFloat.abs amount)%float)
       values sum) = true ->
  Forall (fun value => F64.isFinite value = true) values.
Proof.
  induction values as [|value values IH]; intros sum Hfinite; simpl in *.
  - constructor.
  - constructor; [|now apply (IH _ Hfinite)].
    assert (Hsum : F64.isFinite (sum + PrimFloat.abs value)%float = true).
    { clear IH. revert Hfinite.
      generalize (sum + PrimFloat.abs value)%float as start.
      induction values as [|next values IH]; intros start Hfinite; simpl in *.
      - exact Hfinite.
      - apply IH in Hfinite. now apply F64Sums.finite_add in Hfinite. }
    apply F64Sums.finite_add in Hsum as [_ Habs].
    now rewrite F64Sums.finite_abs in Habs.
Qed.

End ServiceFacts.

(** X18.  [groupByMaterial] throws exactly when some transaction has a
    material named like a member of [Object.prototype].  Otherwise it
    returns one group for each material that occurs, and the group of a
    material holds the transactions of that material, all of them and in
    their order. *)
Theorem groups_hold_the_transactions :
  forall (transactions : list Transactions.Transaction),
    match ChartService.groupByMaterial transactions with
    | None =>
        Exists
          (fun t => JSObject.inherited (Transactions.material t) = true)
          transactions
    | Some groups =>
        Forall ChartService.plain transactions
        /\ NoDup (map fst groups)
        /\ forall material group,
            JSObject.get groups material = Some group
            <-> group = ChartService.transactionsOf material transactions
                /\ group <> []
    end.
Proof.
  intros transactions.
  pose proof (GroupFacts.groupByMaterial_spec transactions) as Hspec.
  destruct (ChartService.groupByMaterial transactions) as [groups|];
    [|exact Hspec].
  destruct Hspec as (Hplain & Hdistinct & Hheld).
  split; [assumption|]. split; [assumption|].
  intros material group. rewrite Hheld. split.
  - apply GroupFacts.held_Some.
  - intros [-> Hsome]. unfold ChartService.held.
    destruct (ChartService.transactionsOf material transactions);
      [now elim Hsome | reflexivity].
Qed.

(** X19.  When every amount is zero the service returns no data point at
    all, whatever the type asked for: the total of the magnitudes is 0 and
    the guard [total === 0] returns the empty array before anything is
    divided by the total.  (For materials that are not named like a
    member of [Object.prototype].) *)
Theorem zero_amounts_give_no_items :
  forall (sort :
            (ChartService.ChartDataItem -> ChartService.ChartDataItem -> float) ->
            list ChartService.ChartDataItem -> list ChartService.ChartDataItem)
    (transactions : list Transactions.Transaction)
    (type : ChartService.ChartType),
    Forall ChartService.plain transactions ->
    Forall (fun t => F64.isZero (Transactions.amount t) = true)
      transactions ->
    ChartService.generatePieChartData sort transactions type = Some [].
Proof.
  intros sort transactions type Hplain Hzero.
  unfold ChartService.generatePieChartData.
  pose proof (GroupFacts.groupByMaterial_spec
                (ChartService.filteredTransactions type transactions))
    as Hspec.
  destruct (ChartService.groupByMaterial _) as [groups|] eqn:Hgroups.
  - assert (Htotal :
      F64.isZero (ChartService.total (ChartService.materialTotals type groups))
      = true).
    { apply ServiceFacts.zero_total; [reflexivity|].
      apply Forall_forall. intros value Hin.
      unfold JSObject.values in Hin.
      apply in_map_iff in Hin as ([key value'] & <- & Hin). simpl.
      apply (proj1 (JSObjectFacts.entries_In _ _)) in Hin.
      rewrite (ServiceFacts.materialTotals_In type _ groups key value'
                 Hgroups Hin).
      apply ServiceFacts.zero_sum; [reflexivity|].
      apply Forall_forall. intros t Ht.
      apply GroupFacts.transactionsOf_In in Ht as [Ht _].
      apply ServiceFacts.filtered_In in Ht.
      rewrite Forall_forall in Hzero. now apply Hzero. }
    now rewrite Htotal.
  - exfalso. apply Exists_exists in Hspec as (t & Ht & Hinherited).
    apply ServiceFacts.filtered_In in Ht.
    rewrite Forall_forall in Hplain. specialize (Hplain t Ht).
    unfold ChartService.plain in Hplain. congruence.
Qed.

Lemma zero_amounts_give_no_items_witness :
  (Forall ChartService.plain
     [sampleTransaction "Sand" 0%float Transactions.PaymentOut;
      sampleTransaction "Glass" (-0)%float Transactions.PaymentIn]
   /\ Forall (fun t => F64.isZero (Transactions.amount t) = true)
        [sampleTransaction "Sand" 0%float Transactions.PaymentOut;
         sampleTransaction "Glass" (-0)%float Transactions.PaymentIn])
  /\ ChartService.generatePieChartData (@ChartService.stableSort _)
       [sampleTransaction "Sand" 0%float Transactions.PaymentOut;
        sampleTransaction "Glass" (-0)%float Transactions.PaymentIn]
       ChartService.Both
     = Some [].
Proof.
  assert (Hplain :
    Forall ChartService.plain
      [sampleTransaction "Sand" 0%float Transactions.PaymentOut;
       sampleTransaction "Glass" (-0)%float Transactions.PaymentIn])
    by (repeat constructor).
  assert (Hzero :
    Forall (fun t => F64.isZero (Transactions.amount t) = true)
      [sampleTransaction "Sand" 0%float Transactions.PaymentOut;
       sampleTransaction "Glass" (-0)%float Transactions.PaymentIn])
    by (repeat constructor).
  split; [split; assumption|].
  apply (zero_amounts_give_no_items _ _ ChartService.Both Hplain Hzero).
Defined.

(** X20.  The data points that the service returns share one total, which
    is not zero: it is the sum of their amounts, added up from 0 in the
    order in which the points were made (the order before the sort).  Each
    percentage is amount / total * 100, no amount is below zero, and each
    colour is one of [CHART_COLORS]. *)
Theorem percentages_share_a_total :
  forall (sort :
            (ChartService.ChartDataItem -> ChartService.ChartDataItem -> float) ->
            list ChartService.ChartDataItem -> list ChartService.ChartDataItem)
    (transactions : list Transactions.Transaction)
    (type : ChartService.ChartType)
    (items : list ChartService.ChartDataItem),
    (forall comparefn array, Permutation (sort comparefn array) array) ->
    ChartService.generatePieChartData sort transactions type = Some items ->
    items <> [] ->
    exists (total : float) (unsorted : list ChartService.ChartDataItem),
      Permutation items unsorted
      /\ total
         = fold_left
             (fun sum item => (sum + ChartService.amount item)%float)
             unsorted 0%float
      /\ F64.isZero total = false
      /\ Forall
           (fun item =>
              ChartService.percentage item
              = (ChartService.amount item / total * 100)%float
              /\ (ChartService.amount item <? 0)%float = false
              /\ In (ChartService.color item) Reporting.CHART_COLORS)
           items.
Proof.
  intros sort transactions type items Hsort Hitems Hsome.
  destruct (ServiceFacts.generate_nonempty sort Hsort _ _ _ Hitems Hsome)
    as (groups & _ & Htotal & Hperm).
  exists (ChartService.total (ChartService.materialTotals type groups)),
    (ChartService.chartData (ChartService.materialTotals type groups)).
  split; [assumption|]. split; [apply ServiceFacts.total_of_items|].
  split; [assumption|].
  apply Forall_forall. intros item Hin.
  apply (Permutation_in _ Hperm) in Hin.
  apply ServiceFacts.chartData_In in Hin as (entry & index & _ & ->).
  split; [reflexivity|]. split; [apply F64Sums.abs_sign|].
  cbn [ChartService.color ChartService.chartItem].
  apply nth_In.
  change (List.length Reporting.CHART_COLORS) with 10%nat.
  apply Nat.mod_upper_bound. discriminate.
Qed.

Lemma percentages_share_a_total_witness :
  ((forall comparefn (array : list ChartService.ChartDataItem),
      Permutation (ChartService.stableSort comparefn array) array)
   /\ ChartService.generatePieChartData (@ChartService.stableSort _)
        [sampleTransaction "Sand" 1%float Transactions.PaymentOut;
         sampleTransaction "Glass" 3%float Transactions.PaymentIn]
        ChartService.Both
      = Some
          [ {| ChartService.name := "Glass";
               ChartService.amount := 3%float;
               ChartService.percentage := 75%float;
               ChartService.color := "#36A2EB" |};
            {| ChartService.name := "Sand";
               ChartService.amount := 1%float;
               ChartService.percentage := 25%float;
               ChartService.color := "#FF6384" |} ])
  /\ exists (total : float) (unsorted : list ChartService.ChartDataItem),
      Permutation
        [ {| ChartService.name := "Glass";
             ChartService.amount := 3%float;
             ChartService.percentage := 75%float;
             ChartService.color := "#36A2EB" |};
          {| ChartService.name := "Sand";
             ChartService.amount := 1%float;
             ChartService.percentage := 25%float;
             ChartService.color := "#FF6384" |} ]
        unsorted
      /\ total
         = fold_left
             (fun sum item => (sum + ChartService.amount item)%float)
             unsorted 0%float
      /\ F64.isZero total = false
      /\ Forall
           (fun item =>
              ChartService.percentage item
              = (ChartService.amount item / total * 100)%float
              /\ (ChartService.amount item <? 0)%float = false
              /\ In (ChartService.color item) Reporting.CHART_COLORS)
           [ {| ChartService.name := "Glass";
                ChartService.amount := 3%float;
                ChartService.percentage := 75%float;
                ChartService.color := "#36A2EB" |};
             {| ChartService.name := "Sand";
                ChartService.amount := 1%float;
                ChartService.percentage := 25%float;
                ChartService.color := "#FF6384" |} ].
Proof.
  split.
  - split; [apply ServiceFacts.stableSort_perm | reflexivity].
  - apply (percentages_share_a_total (@ChartService.stableSort _)
             [sampleTransaction "Sand" 1%float Transactions.PaymentOut;
              sampleTransaction "Glass" 3%float Transactions.PaymentIn]
             ChartService.Both).
    + apply ServiceFacts.stableSort_perm.
    + reflexivity.
    + discriminate.
Defined.

(** X21.  A result that is not empty has exactly one data point for each
    material of the transactions of the type asked for.  The amount of a
    point is the magnitude of the sum of the transactions of its material,
    added up from 0 in their order; for the type 'both' a payment out
    enters the sum negated. *)
Theorem one_item_per_material :
  forall (sort :
            (ChartService.ChartDataItem -> ChartService.ChartDataItem -> float) ->
            list ChartService.ChartDataItem -> list ChartService.ChartDataItem)
    (transactions : list Transactions.Transaction)
    (type : ChartService.ChartType)
    (items : list ChartService.ChartDataItem),
    (forall comparefn array, Permutation (sort comparefn array) array) ->
    ChartService.generatePieChartData sort transactions type = Some items ->
    items <> [] ->
    NoDup (map ChartService.name items)
    /\ (forall material,
          In material (map ChartService.name items)
          <-> exists t,
                In t (ChartService.filteredTransactions type transactions)
                /\ Transactions.material t = material)
    /\ forall item,
        In item items ->
        ChartService.amount item
        = PrimFloat.abs
            (fold_left (ChartService.addSigned type)
               (ChartService.transactionsOf (ChartService.name item)
                  (ChartService.filteredTransactions type transactions))
               0%float).
Proof.
  intros sort transactions type items Hsort Hitems Hsome.
  destruct (ServiceFacts.generate_nonempty sort Hsort _ _ _ Hitems Hsome)
    as (groups & Hgroups & _ & Hperm).
  pose proof (GroupFacts.groupByMaterial_spec
                (ChartService.filteredTransactions type transactions))
    as Hspec.
  rewrite Hgroups in Hspec. destruct Hspec as (_ & Hdistinct & Hheld).
  assert (Hnames :
    Permutation (map ChartService.name items) (map fst groups)).
  { eapply Permutation_trans; [apply Permutation_map, Hperm|].
    rewrite ServiceFacts.chartData_names.
    eapply Permutation_trans; [apply JSObjectFacts.entries_keys|].
    rewrite ServiceFacts.materialTotals_keys by assumption.
    apply JSObjectFacts.entries_keys. }
  split; [|split].
  - apply (Permutation_NoDup (Permutation_sym Hnames) Hdistinct).
  - intros material.
    assert (Hkeys :
      In material (map ChartService.name items)
      <-> In material (map fst groups)).
    { split; apply Permutation_in;
        [assumption | now apply Permutation_sym]. }
    rewrite Hkeys, ServiceFacts.get_keys. split.
    + intros [group Hget]. rewrite Hheld in Hget.
      apply GroupFacts.held_Some in Hget as [-> Hgroup].
      destruct (ChartService.transactionsOf material _) as [|t rest] eqn:Eof;
        [now elim Hgroup|].
      exists t. apply GroupFacts.transactionsOf_In. rewrite Eof. now left.
    + intros (t & Hin & Hmaterial).
      assert (Hof :
        In t (ChartService.transactionsOf material
                (ChartService.filteredTransactions type transactions)))
        by now apply GroupFacts.transactionsOf_In.
      rewrite Hheld. unfold ChartService.held.
      destruct (ChartService.transactionsOf material _) as [|t' rest];
        [destruct Hof | eauto].
  - intros item Hin. apply (Permutation_in _ Hperm) in Hin.
    apply ServiceFacts.chartData_In in Hin as ([key value] & index & Hin & ->).
    cbn [ChartService.amount ChartService.name ChartService.chartItem fst snd].
    now rewrite (ServiceFacts.materialTotals_In type _ groups key value
                   Hgroups Hin).
Qed.

Lemma one_item_per_material_witness :
  ((forall comparefn (array : list ChartService.ChartDataItem),
      Permutation (ChartService.stableSort comparefn array) array)
   /\ ChartService.generatePieChartData (@ChartService.stableSort _)
        [sampleTransaction "Sand" 1%float Transactions.PaymentOut;
         sampleTransaction "Glass" 3%float Transactions.PaymentIn;
         sampleTransaction "Sand" 2%float Transactions.PaymentOut]
        ChartService.OnlyOut
      = Some
          [ {| ChartService.name := "Sand";
               ChartService.amount := 3%float;
               ChartService.percentage := 100%float;
               ChartService.color := "#FF6384" |} ])
  /\ NoDup
       (map ChartService.name
          [ {| ChartService.name := "Sand";
               ChartService.amount := 3%float;
               ChartService.percentage := 100%float;
               ChartService.color := "#FF6384" |} ]).
Proof.
  split.
  - split; [apply ServiceFacts.stableSort_perm | reflexivity].
  - apply (one_item_per_material (@ChartService.stableSort _)
             [sampleTransaction "Sand" 1%float Transactions.PaymentOut;
              sampleTransaction "Glass" 3%float Transactions.PaymentIn;
              sampleTransaction "Sand" 2%float Transactions.PaymentOut]
             ChartService.OnlyOut).
    + apply ServiceFacts.stableSort_perm.
    + reflexivity.
    + discriminate.
Defined.

(** X22.  When the total that the service computes is a finite number,
    every amount it returns is finite and no percentage is NaN: the guard
    has excluded the total 0, so no 0/0 is formed. *)
Theorem finite_total_gives_numbers :
  forall (sort :
            (ChartService.ChartDataItem -> ChartService.ChartDataItem -> float) ->
            list ChartService.ChartDataItem -> list ChartService.ChartDataItem)
    (transactions : list Transactions.Transaction)
    (type : ChartService.ChartType)
    (groups : JSObject.t (list Transactions.Transaction))
    (items : list ChartService.ChartDataItem),
    (forall comparefn array, Permutation (sort comparefn array) array) ->
    ChartService.groupByMaterial
      (ChartService.filteredTransactions type transactions) = Some groups ->
    F64.isFinite (ChartService.total (ChartService.materialTotals type groups))
    = true ->
    ChartService.generatePieChartData sort transactions type = Some items ->
    Forall
      (fun item =>
         F64.isFinite (ChartService.amount item) = true
         /\ F64.isNaN (ChartService.percentage item) = false)
      items.
Proof.
  intros sort transactions type groups items Hsort Hgroups Hfinite Hitems.
  destruct (ServiceFacts.generate_cases sort Hsort _ _ _ Hitems)
    as (groups' & Hgroups' & Hcase).
  rewrite Hgroups in Hgroups'. injection Hgroups' as <-.
  destruct Hcase as [[_ ->] | [Hnonzero Hperm]]; [constructor|].
  apply Forall_forall. intros item Hin.
  apply (Permutation_in _ Hperm) in Hin.
  apply ServiceFacts.chartData_In in Hin as ([key value] & index & Hin & ->).
  cbn [ChartService.amount ChartService.percentage ChartService.chartItem snd].
  assert (Hvalue : F64.isFinite (PrimFloat.abs value) = true).
  { rewrite F64Sums.finite_abs.
    pose proof (ServiceFacts.finite_total _ _ Hfinite) as Hall.
    rewrite Forall_forall in Hall. apply Hall.
    unfold JSObject.values. apply in_map_iff. exists (key, value).
    split; [reflexivity|]. now apply JSObjectFacts.entries_In. }
  split; [assumption|].
  unfold F64.isNaN. apply F64Sums.mul_100_number.
  now apply F64Sums.div_number.
Qed.

Lemma finite_total_gives_numbers_witness :
  ((forall comparefn (array : list ChartService.ChartDataItem),
      Permutation (ChartService.stableSort comparefn array) array)
   /\ ChartService.groupByMaterial
        (ChartService.filteredTransactions ChartService.Both
           [sampleTransaction "Sand" 1%float Transactions.PaymentOut;
            sampleTransaction "Glass" 3%float Transactions.PaymentIn])
      = Some
          [("Sand", [sampleTransaction "Sand" 1%float Transactions.PaymentOut]);
           ("Glass", [sampleTransaction "Glass" 3%float Transactions.PaymentIn])]
   /\ F64.isFinite
        (ChartService.total
           (ChartService.materialTotals ChartService.Both
              [("Sand",
                [sampleTransaction "Sand" 1%float Transactions.PaymentOut]);
               ("Glass",
                [sampleTransaction "Glass" 3%float Transactions.PaymentIn])]))
      = true
   /\ ChartService.generatePieChartData (@ChartService.stableSort _)
        [sampleTransaction "Sand" 1%float Transactions.PaymentOut;
         sampleTransaction "Glass" 3%float Transactions.PaymentIn]
        ChartService.Both
      = Some
          [ {| ChartService.name := "Glass";
               ChartService.amount := 3%float;
               ChartService.percentage := 75%float;
               ChartService.color := "#36A2EB" |};
            {| ChartService.name := "Sand";
               ChartService.amount := 1%float;
               ChartService.percentage := 25%float;
               ChartService.color := "#FF6384" |} ])
  /\ Forall
       (fun item =>
          F64.isFinite (ChartService.amount item) = true
          /\ F64.isNaN (ChartService.percentage item) = false)
       [ {| ChartService.name := "Glass";
            ChartService.amount := 3%float;
            ChartService.percentage := 75%float;
            ChartService.color := "#36A2EB" |};
         {| ChartService.name := "Sand";
            ChartService.amount := 1%float;
            ChartService.percentage := 25%float;
            ChartService.color := "#FF6384" |} ].
Proof.
  split.
  - split; [apply ServiceFacts.stableSort_perm|].
    split; [reflexivity|]. split; reflexivity.
  - apply (finite_total_gives_numbers (@ChartService.stableSort _)
             [sampleTransaction "Sand" 1%float Transactions.PaymentOut;
              sampleTransaction "Glass" 3%float Transactions.PaymentIn]
             ChartService.Both
             [("Sand",
               [sampleTransaction "Sand" 1%float Transactions.PaymentOut]);
              ("Glass",
               [sampleTransaction "Glass" 3%float Transactions.PaymentIn])]).
    + apply ServiceFacts.stableSort_perm.
    + reflexivity.
    + reflexivity.
    + reflexivity.
Defined.
